(** * shipment-svc: the shipment lifecycle, its consumer and its publisher

    A shallow embedding of the Django application [shipment]:
    - [Models]       shipment/models.py
    - [Effects]      the world the code runs in (tables, clock, random, broker)
                     and the monad its statements are written in
    - [Publisher]    shipment/rabbitmq_publisher.py
    - [Objects]      the ORM calls the code makes
    - [Tracking]     the allocation of tracking numbers
    - [Serializers]  shipment/serializers.py
    - [Views]        shipment/views.py
    - [Consumer]     shipment/management/rabbitmq_consumer.py
    followed by the runs of the service, the vocabulary of the properties
    and the properties of the lifecycle that are proved. *)

From Stdlib Require Import List String Ascii ZArith Arith Bool Lia DecimalString
  Relations.
Import ListNotations.
Local Open Scope string_scope.

(* ================================================================== *)
(** * shipment/models.py *)
(* ================================================================== *)

Module Models.

(** [Shipment.STATUS_CHOICES]: the values of the [status] column. *)
Inductive Status : Type :=
| PENDING | PICKED_UP | IN_TRANSIT | OUT_FOR_DELIVERY
| DELIVERED | CANCELLED | FAILED.

(** [Shipment.CARRIER_CHOICES]. *)
Inductive Carrier : Type := DHL | Bluedart | FedEx | DTDC.

Definition Status_eq_dec (a b : Status) : {a = b} + {a <> b}.
Proof. decide equality. Defined.

Definition Status_eqb (a b : Status) : bool :=
  if Status_eq_dec a b then true else false.

(** The stored string of each status (first component of the choice). *)
Definition status_name (s : Status) : string :=
  match s with
  | PENDING => "PENDING"
  | PICKED_UP => "PICKED_UP"
  | IN_TRANSIT => "IN_TRANSIT"
  | OUT_FOR_DELIVERY => "OUT_FOR_DELIVERY"
  | DELIVERED => "DELIVERED"
  | CANCELLED => "CANCELLED"
  | FAILED => "FAILED"
  end.

Definition STATUS_CHOICES : list Status :=
  [PENDING; PICKED_UP; IN_TRANSIT; OUT_FOR_DELIVERY; DELIVERED; CANCELLED; FAILED].

Definition carrier_name (c : Carrier) : string :=
  match c with
  | DHL => "DHL" | Bluedart => "Bluedart" | FedEx => "FedEx" | DTDC => "DTDC"
  end.

(** Python's [value in xs] on statuses. *)
Definition status_in (value : Status) (xs : list Status) : bool :=
  existsb (Status_eqb value) xs.

(** Instants ([DateTimeField]) are points of an integer clock; a decimal
    weight is kept in hundredths of a kilogram ([decimal_places=2]). *)
Definition Instant := Z.

(** A row of the table [shipments]. *)
Record Shipment : Type := mkShipment {
  id : nat;
  order_id : Z;
  tracking_no : string;
  carrier : Carrier;
  status : Status;
  shipped_at : option Instant;
  delivered_at : option Instant;
  created_at : Instant;
  updated_at : Instant;
  shipping_address : option string;
  estimated_delivery : option Instant;
  actual_weight : option Z;
  notes : option string
}.

(** A row of the table [shipment_history]; [h_shipment] is the foreign key. *)
Record ShipmentHistory : Type := mkShipmentHistory {
  h_shipment : nat;
  h_status : Status;
  h_location : string;
  h_description : string;
  h_timestamp : Instant
}.

(** Attribute assignments [instance.<field> = v]. *)
Definition set_status (v : Status) (s : Shipment) : Shipment :=
  mkShipment (id s) (order_id s) (tracking_no s) (carrier s) v
    (shipped_at s) (delivered_at s) (created_at s) (updated_at s)
    (shipping_address s) (estimated_delivery s) (actual_weight s) (notes s).

Definition set_shipped_at (v : option Instant) (s : Shipment) : Shipment :=
  mkShipment (id s) (order_id s) (tracking_no s) (carrier s) (status s)
    v (delivered_at s) (created_at s) (updated_at s)
    (shipping_address s) (estimated_delivery s) (actual_weight s) (notes s).

Definition set_delivered_at (v : option Instant) (s : Shipment) : Shipment :=
  mkShipment (id s) (order_id s) (tracking_no s) (carrier s) (status s)
    (shipped_at s) v (created_at s) (updated_at s)
    (shipping_address s) (estimated_delivery s) (actual_weight s) (notes s).

Definition set_updated_at (v : Instant) (s : Shipment) : Shipment :=
  mkShipment (id s) (order_id s) (tracking_no s) (carrier s) (status s)
    (shipped_at s) (delivered_at s) (created_at s) v
    (shipping_address s) (estimated_delivery s) (actual_weight s) (notes s).

Definition set_actual_weight (v : option Z) (s : Shipment) : Shipment :=
  mkShipment (id s) (order_id s) (tracking_no s) (carrier s) (status s)
    (shipped_at s) (delivered_at s) (created_at s) (updated_at s)
    (shipping_address s) (estimated_delivery s) v (notes s).

Definition set_notes (v : option string) (s : Shipment) : Shipment :=
  mkShipment (id s) (order_id s) (tracking_no s) (carrier s) (status s)
    (shipped_at s) (delivered_at s) (created_at s) (updated_at s)
    (shipping_address s) (estimated_delivery s) (actual_weight s) v.

(** Python's truth value of a nullable timestamp: [not self.shipped_at]. *)
Definition is_unset (t : option Instant) : bool :=
  match t with None => true | Some _ => false end.

(** The part of [Shipment.save] that runs before [super().save()]:
<<
    if self.status in ['PICKED_UP', 'IN_TRANSIT'] and not self.shipped_at:
        self.shipped_at = timezone.now()
    if self.status == 'DELIVERED' and not self.delivered_at:
        self.delivered_at = timezone.now()
>>
    [now] is the value [timezone.now()] returns. *)
Definition save_stamps (now : Instant) (self : Shipment) : Shipment :=
  let self :=
    if status_in (status self) [PICKED_UP; IN_TRANSIT] && is_unset (shipped_at self)
    then set_shipped_at (Some now) self else self in
  if Status_eqb (status self) DELIVERED && is_unset (delivered_at self)
  then set_delivered_at (Some now) self else self.

End Models.
Export Models.

(* ================================================================== *)
(** * The world the service runs in *)
(* ================================================================== *)

Module Effects.

(** The exceptions the modelled statements raise; all of them are
    subclasses of Python's [Exception]. *)
Inductive Exn : Type :=
| ValidationError (detail : string)   (* rest_framework.serializers.ValidationError *)
| Http404                             (* get_object on an unknown pk *)
| IntegrityError (detail : string)    (* NOT NULL and UNIQUE constraints *)
| JSONDecodeError                     (* json.loads on a malformed body *)
| AMQPError                           (* any failure raised by pika *)
| ModuleNotFoundError                 (* an import that finds no module *)
| AttributeError                      (* a method called on None *)
| DataError.                          (* a value the column cannot store *)

(** Outcome of running a statement: it returns, it raises, or the
    bound on loop iterations ran out before it did either. *)
Inductive Res (A : Type) : Type :=
| Ret (a : A)
| Raise (e : Exn)
| Diverge.
Arguments Ret {A} a.
Arguments Raise {A} e.
Arguments Diverge {A}.

(** JSON-like values of event payloads. *)
Inductive Value : Type :=
| VInt (z : Z) | VStr (s : string) | VTime (t : Instant) | VNone.

Definition Payload := list (string * Value).
Definition Event := (string * Payload)%type.

(** [django.conf.settings], the two entries the modelled code reads. *)
Record Settings : Type := mkSettings {
  RABBITMQ_ENABLED : bool;
  RABBITMQ_EXCHANGE : string
}.

(** What the broker does to one interaction (connect, open a channel,
    declare, publish, close): it serves it, it fails it, or it fails it
    and the connection is gone afterwards. *)
Inductive Fault : Type := NoFault | Error | ConnectionLost.

(** Inputs the code does not control: the configuration, the values
    the [random] module draws, and the broker's behaviour, the latter two
    indexed by the number of draws or interactions made so far; and the
    least and the greatest value an [IntegerField] column of the
    configured database stores
    ([connection.ops.integer_field_range('IntegerField')]). *)
Record Env : Type := mkEnv {
  settings : Settings;
  random_source : nat -> Z;
  broker : nat -> Fault;
  integer_field_range : Z * Z
}.

(** A pika connection object as the code observes it ([is_closed]). *)
Inductive Connection : Type := Open | Closed.

(** A pika channel object: it can publish while it and the connection
    it was opened on are open. *)
Inductive Channel : Type := ChannelOpen | ChannelClosed.

(** The attributes of a [RabbitMQPublisher] instance; both are [None]
    until [connect] assigns them. *)
Record PublisherObj : Type := mkPublisherObj {
  connection : option Connection;
  channel : option Channel
}.

(** Calls on the consumer channel [ch] made by a handler. *)
Inductive ChannelCall : Type :=
| basic_ack
| basic_nack (requeue : bool).

(** The mutable state: both tables (newest row first, the order of
    [Meta.ordering]), the auto-increment counter of [shipments], the
    clock, the position in the random and broker streams, the module
    global [_publisher], the messages the exchange accepted, and two
    observation logs no modelled statement reads: the arguments of every
    [publish_event] call and the acknowledgements sent on the consumer
    channel. *)
Record World : Type := mkWorld {
  shipments : list Shipment;
  history : list ShipmentHistory;
  next_id : nat;
  clock : Instant;
  rand_pos : nat;
  _publisher : option PublisherObj;
  broker_pos : nat;
  delivered : list Event;
  outbox : list Event;
  acks : list ChannelCall
}.

Definition with_shipments (v : list Shipment) (w : World) : World :=
  mkWorld v (history w) (next_id w) (clock w) (rand_pos w) (_publisher w)
    (broker_pos w) (delivered w) (outbox w) (acks w).
Definition with_history (v : list ShipmentHistory) (w : World) : World :=
  mkWorld (shipments w) v (next_id w) (clock w) (rand_pos w) (_publisher w)
    (broker_pos w) (delivered w) (outbox w) (acks w).
Definition with_next_id (v : nat) (w : World) : World :=
  mkWorld (shipments w) (history w) v (clock w) (rand_pos w) (_publisher w)
    (broker_pos w) (delivered w) (outbox w) (acks w).
Definition with_clock (v : Instant) (w : World) : World :=
  mkWorld (shipments w) (history w) (next_id w) v (rand_pos w) (_publisher w)
    (broker_pos w) (delivered w) (outbox w) (acks w).
Definition with_rand_pos (v : nat) (w : World) : World :=
  mkWorld (shipments w) (history w) (next_id w) (clock w) v (_publisher w)
    (broker_pos w) (delivered w) (outbox w) (acks w).
Definition with_publisher (v : option PublisherObj) (w : World) : World :=
  mkWorld (shipments w) (history w) (next_id w) (clock w) (rand_pos w) v
    (broker_pos w) (delivered w) (outbox w) (acks w).
Definition with_broker_pos (v : nat) (w : World) : World :=
  mkWorld (shipments w) (history w) (next_id w) (clock w) (rand_pos w)
    (_publisher w) v (delivered w) (outbox w) (acks w).
Definition with_delivered (v : list Event) (w : World) : World :=
  mkWorld (shipments w) (history w) (next_id w) (clock w) (rand_pos w)
    (_publisher w) (broker_pos w) v (outbox w) (acks w).
Definition with_outbox (v : list Event) (w : World) : World :=
  mkWorld (shipments w) (history w) (next_id w) (clock w) (rand_pos w)
    (_publisher w) (broker_pos w) (delivered w) v (acks w).
Definition with_acks (v : list ChannelCall) (w : World) : World :=
  mkWorld (shipments w) (history w) (next_id w) (clock w) (rand_pos w)
    (_publisher w) (broker_pos w) (delivered w) (outbox w) v.

(** A statement: it transforms the world and has an outcome.  Changes
    made before an exception stay (every [save] is committed at once). *)
Definition M (A : Type) : Type := World -> World * Res A.

Definition ret {A} (a : A) : M A := fun w => (w, Ret a).

Definition raise {A} (e : Exn) : M A := fun w => (w, Raise e).

Definition bind {A B} (m : M A) (k : A -> M B) : M B :=
  fun w =>
    match m w with
    | (w', Ret a) => k a w'
    | (w', Raise e) => (w', Raise e)
    | (w', Diverge) => (w', Diverge)
    end.

(** [try: body except Exception as e: handler]. *)
Definition try_except {A} (body : M A) (handler : Exn -> M A) : M A :=
  fun w =>
    match body w with
    | (w', Raise e) => handler e w'
    | r => r
    end.

Definition lift {A} (r : Res A) : M A := fun w => (w, r).

Definition gets {A} (f : World -> A) : M A := fun w => (w, Ret (f w)).

Definition modify (f : World -> World) : M unit := fun w => (f w, Ret tt).

Declare Scope stmt_scope.
Delimit Scope stmt_scope with stmt.
Notation "x <- m ;; k" := (bind m (fun x => k))
  (at level 61, m at next level, right associativity) : stmt_scope.
Notation "m ;; k" := (bind m (fun _ => k))
  (at level 61, right associativity) : stmt_scope.
Local Open Scope stmt_scope.

(** [timezone.now()]: the clock is read and moves on. *)
Definition timezone_now : M Instant :=
  fun w => (with_clock (clock w + 1)%Z w, Ret (clock w)).

(** Python's [x or default] on an optional string: [None] and the empty
    string are both false. *)
Definition or_default (x : option string) (default : string) : string :=
  match x with
  | Some s => if String.eqb s EmptyString then default else s
  | None => default
  end.

End Effects.
Export Effects.
Local Open Scope stmt_scope.

(* ================================================================== *)
(** * shipment/rabbitmq_publisher.py *)
(* ================================================================== *)

Module Publisher.
Section WithEnv.
Variable env : Env.

(** The attributes of the singleton; a method runs only after
    [get_publisher] has created it. *)
Definition self_connection (w : World) : option Connection :=
  match _publisher w with
  | Some p => connection p
  | None => None
  end.

Definition self_channel (w : World) : option Channel :=
  match _publisher w with
  | Some p => channel p
  | None => None
  end.

Definition set_connection (c : option Connection) (w : World) : World :=
  match _publisher w with
  | Some p => with_publisher (Some (mkPublisherObj c (channel p))) w
  | None => w
  end.

Definition set_channel (c : option Channel) (w : World) : World :=
  match _publisher w with
  | Some p => with_publisher (Some (mkPublisherObj (connection p) c)) w
  | None => w
  end.

(** The channel object [self.channel] holds, if any, is closed: its
    connection was closed, was lost, or is being replaced. *)
Definition close_channel (w : World) : World :=
  match self_channel w with
  | Some ChannelOpen => set_channel (Some ChannelClosed) w
  | _ => w
  end.

(** A connection that was open is seen closed once the broker lost it,
    and so is its channel. *)
Definition lose_connection (w : World) : World :=
  match self_connection w with
  | Some Open => close_channel (set_connection (Some Closed) w)
  | _ => w
  end.

(** One interaction with the broker: the next entry of [broker env]
    decides whether the pika call returns or raises. *)
Definition broker_call : M unit :=
  fun w =>
    let w' := with_broker_pos (S (broker_pos w)) w in
    match broker env (broker_pos w) with
    | NoFault => (w', Ret tt)
    | Error => (w', Raise AMQPError)
    | ConnectionLost => (lose_connection w', Raise AMQPError)
    end.

(** [RabbitMQPublisher.connect].  The new connection takes the place of
    one that was closed, whose channel [self.channel] may still hold. *)
Definition connect : M bool :=
  try_except
    (broker_call ;;                               (* pika.BlockingConnection(parameters) *)
     modify (fun w => set_connection (Some Open) (close_channel w)) ;;
     broker_call ;;                               (* self.connection.channel() *)
     modify (set_channel (Some ChannelOpen)) ;;
     broker_call ;;                               (* self.channel.exchange_declare(...) *)
     ret true)
    (fun _ => ret false).

(** [RabbitMQPublisher.close]. *)
Definition close : M unit :=
  try_except
    (c <- gets self_connection ;;
     match c with
     | Some Open =>
         broker_call ;;                           (* self.connection.close() *)
         modify (fun w => close_channel (set_connection (Some Closed) w))
     | _ => ret tt
     end)
    (fun _ => ret tt).

(** [self.channel.basic_publish(...)]: an attribute error on [None], an
    error of pika on a closed channel, else an interaction with the
    broker; the message reaches the exchange when the call returns. *)
Definition basic_publish (routing_key : string) (message : Payload) : M unit :=
  ch <- gets self_channel ;;
  match ch with
  | None => raise AttributeError
  | Some ChannelClosed => raise AMQPError
  | Some ChannelOpen =>
      broker_call ;;
      modify (fun w => with_delivered (delivered w ++ [(routing_key, message)]) w)
  end.

(** [RabbitMQPublisher.publish]. *)
Definition publish (routing_key : string) (message : Payload) : M bool :=
  try_except
    (c <- gets self_connection ;;
     ok <- match c with
           | Some Open => ret true
           | _ => connect                         (* not self.connection or is_closed *)
           end ;;
     if negb ok then ret false
     else
       basic_publish routing_key message ;;
       ret true)
    (fun _ => close ;; ret false).

(** [get_publisher]: creates the singleton on first use. *)
Definition get_publisher : M unit :=
  modify (fun w =>
    match _publisher w with
    | None => with_publisher (Some (mkPublisherObj None None)) w
    | Some _ => w
    end).

(** [publish_event]; the call is noted in [outbox] on entry. *)
Definition publish_event (event_type : string) (data : Payload) : M bool :=
  modify (fun w => with_outbox (outbox w ++ [(event_type, data)]) w) ;;
  if negb (RABBITMQ_ENABLED (settings env)) then ret false
  else
    get_publisher ;;
    publish event_type data.

(** [close_publisher]: closes the singleton and forgets it. *)
Definition close_publisher : M unit :=
  p <- gets _publisher ;;
  match p with
  | Some _ =>
      close ;;
      modify (with_publisher None)
  | None => ret tt
  end.

End WithEnv.
End Publisher.

(* ================================================================== *)
(** * The ORM calls the code makes ([Shipment.objects], [save]) *)
(* ================================================================== *)

Module Objects.

(** [Shipment.objects.filter(tracking_no=tracking_no).exists()]. *)
Definition tracking_no_exists (t : string) : M bool :=
  gets (fun w => existsb (fun s => String.eqb (tracking_no s) t) (shipments w)).

(** The row filter
    [order_id=oid, status__in=['PENDING', 'PICKED_UP', 'IN_TRANSIT']];
    a missing [order_id] ([None]) matches no row of a NOT NULL column. *)
Definition is_active_for (oid : option Z) (s : Shipment) : bool :=
  match oid with
  | Some o => Z.eqb (order_id s) o
  | None => false
  end && status_in (status s) [PENDING; PICKED_UP; IN_TRANSIT].

Definition filter_active (oid : option Z) : M (list Shipment) :=
  gets (fun w => filter (is_active_for oid) (shipments w)).

(** [UPDATE shipments SET ... WHERE id = self.id]. *)
Definition update_row (self : Shipment) (rows : list Shipment) : list Shipment :=
  map (fun r => if Nat.eqb (id r) (id self) then self else r) rows.

(** [Shipment.save] on a stored instance: the override's two tests, then
    [super().save()], which sets [updated_at] ([auto_now]) and writes the
    row.  One reading of the clock serves the whole call. *)
Definition save (self : Shipment) : M Shipment :=
  now <- timezone_now ;;
  let self := set_updated_at now (save_stamps now self) in
  modify (fun w => with_shipments (update_row self (shipments w)) w) ;;
  ret self.

(** A value an [IntegerField] column of the database stores. *)
Definition in_integer_range (env : Env) (z : Z) : bool :=
  Z.leb (fst (integer_field_range env)) z && Z.leb z (snd (integer_field_range env)).

(** [Shipment.objects.create(...)]: a new instance goes through
    [Shipment.save].  The two tests of the override find both timestamps
    unset and read the clock where they hold; [super().save()] reads it
    for [created_at] and again for [updated_at]; the insert assigns the
    next primary key, and fails on a null [order_id], on an [order_id]
    the column cannot store, and on a [tracking_no] that is already
    stored ([unique=True]). *)
Definition create (env : Env) (oid : option Z) (tracking : string) (c : Carrier)
    (st : Status) (address : option string) (eta : option Instant)
    (weight : option Z) (note : option string) : M Shipment :=
  shipped <- (if status_in st [PICKED_UP; IN_TRANSIT]
              then now <- timezone_now ;; ret (Some now)
              else ret None) ;;
  delivered <- (if Status_eqb st DELIVERED
                then now <- timezone_now ;; ret (Some now)
                else ret None) ;;
  created <- timezone_now ;;
  updated <- timezone_now ;;
  match oid with
  | None => raise (IntegrityError "NOT NULL constraint failed: shipments.order_id")
  | Some o =>
      if negb (in_integer_range env o)
      then raise DataError
      else
        taken <- tracking_no_exists tracking ;;
        if taken
        then raise (IntegrityError "UNIQUE constraint failed: shipments.tracking_no")
        else
          pk <- gets next_id ;;
          let self :=
            mkShipment pk o tracking c st shipped delivered created updated
              address eta weight note in
          modify (fun w => with_next_id (S pk) (with_shipments (self :: shipments w) w)) ;;
          ret self
  end.

(** [ShipmentHistory.objects.create(...)]; [timestamp] is [auto_now_add]. *)
Definition history_create (shipment : Shipment) (st : Status)
    (location description : string) : M unit :=
  now <- timezone_now ;;
  modify (fun w =>
    with_history (mkShipmentHistory (id shipment) st location description now
                    :: history w) w).

(** [get_object()] of the view set: the row with primary key [pk]. *)
Definition get_object (pk : nat) : M Shipment :=
  found <- gets (fun w => find (fun s => Nat.eqb (id s) pk) (shipments w)) ;;
  match found with
  | Some s => ret s
  | None => raise Http404
  end.

(** [instance.delete()]; history rows go with it ([on_delete=CASCADE]). *)
Definition delete (instance : Shipment) : M unit :=
  modify (fun w =>
    with_history
      (filter (fun h => negb (Nat.eqb (h_shipment h) (id instance))) (history w))
      (with_shipments
         (filter (fun s => negb (Nat.eqb (id s) (id instance))) (shipments w)) w)).

End Objects.

(* ================================================================== *)
(** * Tracking numbers *)
(* ================================================================== *)

(** The statements
<<
    tracking_no = f"TRK{random.randint(1000, 9999)}"
    while Shipment.objects.filter(tracking_no=tracking_no).exists():
        tracking_no = f"TRK{random.randint(1000, 9999)}"
>>
    which [ShipmentCreateSerializer.create] and [handle_order_confirmed]
    both contain. *)
Module Tracking.
Section WithEnv.
Variable env : Env.

(** [random.randint(lo, hi)]: the next value of the random stream,
    brought into [lo..hi]. *)
Definition randint (lo hi : Z) : M Z :=
  fun w =>
    (with_rand_pos (S (rand_pos w)) w,
     Ret (lo + random_source env (rand_pos w) mod (hi - lo + 1))%Z).

(** [f"TRK{n}"]. *)
Definition format_trk (n : Z) : string :=
  "TRK" ++ NilZero.string_of_int (Z.to_int n).

Definition draw_tracking_no : M string :=
  n <- randint 1000 9999 ;;
  ret (format_trk n).

(** The [while] loop, run for at most [fuel] iterations of its body. *)
Fixpoint while_exists (fuel : nat) (tracking_no : string) : M string :=
  taken <- Objects.tracking_no_exists tracking_no ;;
  if taken
  then match fuel with
       | O => lift Diverge
       | S fuel' =>
           tracking_no <- draw_tracking_no ;;
           while_exists fuel' tracking_no
       end
  else ret tracking_no.

Definition unique_tracking_no (fuel : nat) : M string :=
  tracking_no <- draw_tracking_no ;;
  while_exists fuel tracking_no.

End WithEnv.
End Tracking.

(* ================================================================== *)
(** * shipment/serializers.py *)
(* ================================================================== *)

Module Serializers.
Section WithEnv.
Variable env : Env.

(** The dictionary literal of [validate_status], in source order. *)
Definition valid_transitions : list (Status * list Status) :=
  [ (PENDING, [PICKED_UP; CANCELLED]);
    (PICKED_UP, [IN_TRANSIT; CANCELLED]);
    (IN_TRANSIT, [OUT_FOR_DELIVERY; FAILED]);
    (OUT_FOR_DELIVERY, [DELIVERED; FAILED]);
    (DELIVERED, []);
    (CANCELLED, []);
    (FAILED, [IN_TRANSIT]) ].

(** [d.get(key, default)]. *)
Fixpoint dict_get (d : list (Status * list Status)) (key : Status)
    (default : list Status) : list Status :=
  match d with
  | [] => default
  | (k, v) :: d' => if Status_eqb k key then v else dict_get d' key default
  end.

(** [ShipmentUpdateSerializer.validate_status]; [instance] is
    [self.instance]. *)
Definition validate_status (instance : option Shipment) (value : Status)
    : Res Status :=
  match instance with
  | Some instance =>
      let current_status := status instance in
      if negb (Status_eqb value current_status)
         && negb (status_in value (dict_get valid_transitions current_status []))
      then Raise (ValidationError
                    ("Invalid status transition from " ++ status_name current_status
                     ++ " to " ++ status_name value))
      else Ret value
  | None => Ret value
  end.

(** [request.data] of an update: the keys the serializer declares
    ([Meta.fields] and the two write-only fields), and further keys a
    client may send, which no declared field reads.  [None] is an absent
    key; [notes] and [actual_weight] may also be sent as null. *)
Record UpdateRequest : Type := mkUpdateRequest {
  req_status : option string;
  req_location : option string;
  req_description : option string;
  req_notes : option (option string);
  req_actual_weight : option (option Z);
  req_order_id : option Z;
  req_tracking_no : option string;
  req_carrier : option string;
  req_shipped_at : option Instant;
  req_delivered_at : option Instant;
  req_created_at : option Instant
}.

(** [validated_data] of [ShipmentUpdateSerializer]. *)
Record UpdateData : Type := mkUpdateData {
  v_status : option Status;
  v_location : option string;
  v_description : option string;
  v_notes : option (option string);
  v_actual_weight : option (option Z)
}.

(** The choice field of [status]: the string must name a status. *)
Definition status_of_string (raw : string) : option Status :=
  find (fun st => String.eqb (status_name st) raw) STATUS_CHOICES.

(** [serializer.is_valid(raise_exception=True)] for an update: every
    declared field that is present is validated, [status] by its choice
    field and then by [validate_status]. *)
Definition is_valid (instance : Shipment) (data : UpdateRequest) : M UpdateData :=
  st <- match req_status data with
        | None => ret None
        | Some raw =>
            match status_of_string raw with
            | None => raise (ValidationError "status: not a valid choice.")
            | Some value =>
                value <- lift (validate_status (Some instance) value) ;;
                ret (Some value)
            end
        end ;;
  ret (mkUpdateData st (req_location data) (req_description data)
         (req_notes data) (req_actual_weight data)).

(** [ModelSerializer.update]: [setattr] for every validated attribute,
    then [instance.save()]. *)
Definition setattrs (validated_data : UpdateData) (instance : Shipment) : Shipment :=
  let instance := match v_status validated_data with
                  | Some v => set_status v instance
                  | None => instance
                  end in
  let instance := match v_notes validated_data with
                  | Some v => set_notes v instance
                  | None => instance
                  end in
  match v_actual_weight validated_data with
  | Some v => set_actual_weight v instance
  | None => instance
  end.

Definition super_update (instance : Shipment) (validated_data : UpdateData)
    : M Shipment :=
  Objects.save (setattrs validated_data instance).

(** [ShipmentUpdateSerializer.update]. *)
Definition update (instance : Shipment) (validated_data : UpdateData)
    : M Shipment :=
  let location := v_location validated_data in
  let description := v_description validated_data in
  let old_status := status instance in
  shipment <- super_update instance validated_data ;;
  (if negb (Status_eqb old_status (status shipment))
   then Objects.history_create shipment (status shipment)
          (or_default location EmptyString)
          (or_default description
             ("Status updated to " ++ status_name (status shipment)))
   else ret tt) ;;
  ret shipment.

(** [request.data] of a creation, by the fields of
    [ShipmentCreateSerializer.Meta]. *)
Record CreateRequest : Type := mkCreateRequest {
  c_order_id : option Z;
  c_carrier : option Carrier;
  c_shipping_address : option string;
  c_estimated_delivery : option Instant;
  c_actual_weight : option Z;
  c_notes : option string
}.

(** [f"{n}"] of an integer. *)
Definition str_int (n : Z) : string := NilZero.string_of_int (Z.to_int n).

(** [ShipmentCreateSerializer.create], after [is_valid] has required
    [order_id] and [carrier] and has held [order_id] against the range
    of its column, which the serializer field takes from the model
    field. *)
Definition create (fuel : nat) (validated_data : CreateRequest) : M Shipment :=
  match c_order_id validated_data, c_carrier validated_data with
  | Some o, Some c =>
      if Z.ltb o (fst (integer_field_range env))
      then raise (ValidationError
                    ("Ensure this value is greater than or equal to "
                     ++ str_int (fst (integer_field_range env)) ++ "."))
      else if Z.ltb (snd (integer_field_range env)) o
      then raise (ValidationError
                    ("Ensure this value is less than or equal to "
                     ++ str_int (snd (integer_field_range env)) ++ "."))
      else
        tracking_no <- Tracking.unique_tracking_no env fuel ;;
        Objects.create env (c_order_id validated_data) tracking_no c PENDING
          (c_shipping_address validated_data) (c_estimated_delivery validated_data)
          (c_actual_weight validated_data) (c_notes validated_data)
  | _, _ => raise (ValidationError "This field is required.")
  end.

End WithEnv.
End Serializers.

(* ================================================================== *)
(** * shipment/views.py *)
(* ================================================================== *)

Module Views.
Section WithEnv.
Variable env : Env.

Definition vid (s : Shipment) : Value := VInt (Z.of_nat (id s)).

Definition vtime (t : option Instant) : Value :=
  match t with
  | Some t => VTime t
  | None => VNone
  end.

(** [ShipmentViewSet._publish_status_event].  The assignment
    [event_data['delivered_at'] = ...] changes the one dictionary both
    calls publish. *)
Definition _publish_status_event (shipment : Shipment) (old_status : Status)
    : M unit :=
  let event_data : Payload :=
    [ ("shipment_id", vid shipment);
      ("order_id", VInt (order_id shipment));
      ("tracking_no", VStr (tracking_no shipment));
      ("carrier", VStr (carrier_name (carrier shipment)));
      ("old_status", VStr (status_name old_status));
      ("new_status", VStr (status_name (status shipment)));
      ("updated_at", VTime (updated_at shipment)) ] in
  event_data <-
    match status shipment with
    | PICKED_UP =>
        Publisher.publish_event env "shipment.picked_up" event_data ;; ret event_data
    | IN_TRANSIT =>
        Publisher.publish_event env "shipment.in_transit" event_data ;; ret event_data
    | OUT_FOR_DELIVERY =>
        Publisher.publish_event env "shipment.out_for_delivery" event_data ;;
        ret event_data
    | DELIVERED =>
        let event_data :=
          (event_data ++ [("delivered_at", vtime (delivered_at shipment))])%list in
        Publisher.publish_event env "shipment.delivered" event_data ;; ret event_data
    | CANCELLED =>
        Publisher.publish_event env "shipment.cancelled" event_data ;; ret event_data
    | FAILED =>
        Publisher.publish_event env "shipment.failed" event_data ;; ret event_data
    | PENDING => ret event_data
    end ;;
  Publisher.publish_event env "shipment.status_updated" event_data ;;
  ret tt.

(** [ShipmentViewSet.create]; the response carries the shipment. *)
Definition create (fuel : nat) (data : Serializers.CreateRequest) : M Shipment :=
  shipment <- Serializers.create env fuel data ;;
  Publisher.publish_event env "shipment.created"
    [ ("shipment_id", vid shipment);
      ("order_id", VInt (order_id shipment));
      ("tracking_no", VStr (tracking_no shipment));
      ("carrier", VStr (carrier_name (carrier shipment)));
      ("status", VStr (status_name (status shipment)));
      ("created_at", VTime (created_at shipment)) ] ;;
  ret shipment.

(** [ShipmentViewSet.update]; [partial] only relaxes required fields, and
    the update serializer has none. *)
Definition update (pk : nat) (data : Serializers.UpdateRequest) : M Shipment :=
  instance <- Objects.get_object pk ;;
  let old_status := status instance in
  validated_data <- Serializers.is_valid instance data ;;
  shipment <- Serializers.update instance validated_data ;;
  (if negb (Status_eqb old_status (status shipment))
   then _publish_status_event shipment old_status
   else ret tt) ;;
  ret shipment.

(** [ShipmentViewSet.partial_update]. *)
Definition partial_update (pk : nat) (data : Serializers.UpdateRequest)
    : M Shipment :=
  update pk data.

(** [destroy], inherited from [ModelViewSet]. *)
Definition destroy (pk : nat) : M unit :=
  instance <- Objects.get_object pk ;;
  Objects.delete instance.

(** What the action [by_tracking] answers: the shipment it serializes
    (status 200), the error of a 400 response, or the exception that
    leaves [get_object_or_404]: [Http404] when no row matches, and the
    [MultipleObjectsReturned] of [.get()] when several do. *)
Inductive TrackingAnswer : Type :=
| Found (shipment : Shipment)
| BadRequest (error : string)
| NotFound
| MultipleObjectsReturned.

(** [ShipmentViewSet.by_tracking]; the argument is
    [request.query_params.get('tracking_no')], and [not tracking_no]
    holds of [None] and of the empty string.  The action reads the
    table and writes nothing. *)
Definition by_tracking (tracking_no : option string) (w : World) : TrackingAnswer :=
  match tracking_no with
  | None => BadRequest "tracking_no parameter is required"
  | Some t =>
      if String.eqb t EmptyString
      then BadRequest "tracking_no parameter is required"
      else
        match filter (fun s => String.eqb (Models.tracking_no s) t) (shipments w) with
        | [] => NotFound
        | [shipment] => Found shipment
        | _ :: _ :: _ => MultipleObjectsReturned
        end
  end.

End WithEnv.
End Views.

(* ================================================================== *)
(** * shipment/management/rabbitmq_consumer.py *)
(* ================================================================== *)

Module Consumer.
Section WithEnv.
Variable env : Env.

(** The modules of the repository by their dotted names, as its files
    lie. *)
Definition MODULES : list string :=
  [ "main.urls";
    "shipment.admin";
    "shipment.health_urls";
    "shipment.models";
    "shipment.rabbitmq_publisher";
    "shipment.serializers";
    "shipment.views";
    "shipment.management.rabbitmq_consumer";
    "shipment.management.commands.consume_shipping_events" ].

(** [__package__] of this module, shipment/management/rabbitmq_consumer.py. *)
Definition PACKAGE : string := "shipment.management".

(** [from .name import ...] in a module of [package]: the module
    [package.name] is looked up, and a module that does not exist
    raises. *)
Definition import_from (package name : string) : M unit :=
  if existsb (String.eqb (package ++ "." ++ name)) MODULES
  then ret tt
  else raise ModuleNotFoundError.

(** The JSON object of an inbound message, by the keys the handlers
    read with [message.get]: [order_id], absent or null ([None]) or an
    integer, and [shipping_address], absent ([None]), null ([Some None])
    or a string. *)
Record Message : Type := mkMessage {
  m_order_id : option Z;
  m_shipping_address : option (option string)
}.

(** [json.loads(body)]: a body is either such an object or malformed
    ([None]), and then the call raises. *)
Definition json_loads (body : option Message) : M Message :=
  match body with
  | Some message => ret message
  | None => raise JSONDecodeError
  end.

(** [ch.basic_ack(...)] and [ch.basic_nack(..., requeue=requeue)]. *)
Definition ch_basic_ack : M unit :=
  modify (fun w => with_acks (acks w ++ [basic_ack]) w).

Definition ch_basic_nack (requeue : bool) : M unit :=
  modify (fun w => with_acks (acks w ++ [basic_nack requeue]) w).

(** [for x in xs: body(x)]. *)
Fixpoint for_each {A} (xs : list A) (body : A -> M unit) : M unit :=
  match xs with
  | [] => ret tt
  | x :: xs' => body x ;; for_each xs' body
  end.

(** [.exists()] on an evaluated query. *)
Definition exists_ {A} (rows : list A) : bool :=
  match rows with [] => false | _ :: _ => true end.

(** [message.get('shipping_address', '')]. *)
Definition get_shipping_address (message : Message) : option string :=
  match m_shipping_address message with
  | None => Some EmptyString
  | Some value => value
  end.

(** The statements of [handle_order_confirmed] from the import of the
    model to the creation of the shipment (lines 126-153): the result is
    the shipment created, or [None] when the handler returns early. *)
Definition confirmed_mutation (fuel : nat) (body : option Message)
    : M (option Shipment) :=
  import_from PACKAGE "models" ;;               (* from .models import Shipment *)
  message <- json_loads body ;;
  let oid := m_order_id message in
  found <- Objects.filter_active oid ;;
  if exists_ found
  then ch_basic_ack ;; ret None
  else
    tracking_no <- Tracking.unique_tracking_no env fuel ;;
    shipment <- Objects.create env oid tracking_no DHL PENDING
                  (get_shipping_address message) None None None ;;
    ret (Some shipment).

(** The statements that follow (lines 155-165): the import of
    [publish_event], the publication and the acknowledgement. *)
Definition confirmed_publication (shipment : Shipment) : M unit :=
  import_from PACKAGE "rabbitmq_publisher" ;;   (* from .rabbitmq_publisher import ... *)
  Publisher.publish_event env "shipment.created"
    [ ("shipment_id", Views.vid shipment);
      ("order_id", VInt (order_id shipment));
      ("tracking_no", VStr (Models.tracking_no shipment));
      ("carrier", VStr (carrier_name (carrier shipment)));
      ("status", VStr (status_name (status shipment))) ] ;;
  ch_basic_ack.

(** [handle_order_confirmed]: both parts run inside its [try]. *)
Definition handle_order_confirmed (fuel : nat) (body : option Message) : M unit :=
  try_except
    (created <- confirmed_mutation fuel body ;;
     match created with
     | None => ret tt                             (* return *)
     | Some shipment => confirmed_publication shipment
     end)
    (fun _ => ch_basic_nack true).

(** The body of the loop of [handle_order_cancelled]. *)
Definition cancel_one (shipment : Shipment) : M unit :=
  shipment <- Objects.save (set_status CANCELLED shipment) ;;
  import_from PACKAGE "rabbitmq_publisher" ;;   (* from .rabbitmq_publisher import ... *)
  Publisher.publish_event env "shipment.cancelled"
    [ ("shipment_id", Views.vid shipment);
      ("order_id", VInt (order_id shipment));
      ("tracking_no", VStr (tracking_no shipment));
      ("reason", VStr "order_cancelled") ] ;;
  ret tt.

(** [handle_order_cancelled]. *)
Definition handle_order_cancelled (body : option Message) : M unit :=
  try_except
    (import_from PACKAGE "models" ;;              (* from .models import Shipment *)
     message <- json_loads body ;;
     let oid := m_order_id message in
     found <- Objects.filter_active oid ;;
     for_each found cancel_one ;;
     ch_basic_ack)
    (fun _ => ch_basic_nack true).

(** [EVENT_HANDLERS]. *)
Definition EVENT_HANDLERS (fuel : nat)
    : list (string * (option Message -> M unit)) :=
  [ ("order.confirmed", handle_order_confirmed fuel);
    ("order.cancelled", handle_order_cancelled) ].

(** [message_callback]. *)
Definition message_callback (fuel : nat) (routing_key : string)
    (body : option Message) : M unit :=
  match find (fun kv => String.eqb (fst kv) routing_key) (EVENT_HANDLERS fuel) with
  | Some (_, handler) => handler body
  | None => ch_basic_ack
  end.

End WithEnv.
End Consumer.

(* ================================================================== *)
(** * Runs of the service *)
(* ================================================================== *)

(** Everything that changes the tables: the three writing actions of
    the view set and the delivery of a message to the consumer. *)
Inductive Op : Type :=
| ApiCreate (data : Serializers.CreateRequest)
| ApiUpdate (pk : nat) (data : Serializers.UpdateRequest)
| ApiPartialUpdate (pk : nat) (data : Serializers.UpdateRequest)
| ApiDestroy (pk : nat)
| Deliver (routing_key : string) (body : option Consumer.Message).

(** The world after an operation, and whether it came to an end. *)
Definition run_op (env : Env) (fuel : nat) (op : Op) (w : World) : World * bool :=
  let finished {A} (r : World * Res A) : World * bool :=
    (fst r, match snd r with Diverge => false | _ => true end) in
  match op with
  | ApiCreate data => finished (Views.create env fuel data w)
  | ApiUpdate pk data => finished (Views.update env pk data w)
  | ApiPartialUpdate pk data => finished (Views.partial_update env pk data w)
  | ApiDestroy pk => finished (Views.destroy pk w)
  | Deliver routing_key body =>
      finished (Consumer.message_callback env fuel routing_key body w)
  end.

(** The worlds a deployment passes through, newest first: it starts with
    an empty [shipments] table, and every operation that comes to an end
    adds the world it leaves. *)
Inductive run (env : Env) : list World -> Prop :=
| run_start : forall w, shipments w = [] -> run env [w]
| run_step : forall w tr fuel op w',
    run env (w :: tr) ->
    run_op env fuel op w = (w', true) ->
    run env (w' :: w :: tr).

(** Shipment [pk] has, in some world of the trace, a status of [sts]. *)
Definition reached (tr : list World) (pk : nat) (sts : list Status) : Prop :=
  exists w s, In w tr /\ In s (shipments w) /\ id s = pk /\ status_in (status s) sts = true.

(** The initial world of the examples: empty tables, no publisher. *)
Definition empty_world : World :=
  mkWorld [] [] 1 0%Z 0 None 0 [] [] [].

(* ================================================================== *)
(** * Vocabulary of the properties *)
(* ================================================================== *)

(** ** The state machine *)

(** The transition table as the specification prints it (section 4.2),
    to be compared with the dictionary of [validate_status]. *)
Definition transition_table (from : Status) : list Status :=
  match from with
  | PENDING => [PICKED_UP; CANCELLED]
  | PICKED_UP => [IN_TRANSIT; CANCELLED]
  | IN_TRANSIT => [OUT_FOR_DELIVERY; FAILED]
  | OUT_FOR_DELIVERY => [DELIVERED; FAILED]
  | FAILED => [IN_TRANSIT]
  | DELIVERED => []
  | CANCELLED => []
  end.

(** Terminal states of the specification: no outgoing transition. *)
Definition is_terminal (st : Status) : bool :=
  match transition_table st with [] => true | _ :: _ => false end.

(** The message [validate_status] raises for a rejected pair. *)
Definition invalid_transition (from to : Status) : Exn :=
  ValidationError
    ("Invalid status transition from " ++ status_name from ++ " to " ++ status_name to).

(** ** Tables and keys *)

(** What a statement leaves alone when it only talks to the broker. *)
Definition tables_kept (w w' : World) : Prop :=
  shipments w' = shipments w /\ history w' = history w /\
  next_id w' = next_id w /\ clock w' = clock w /\
  rand_pos w' = rand_pos w /\ acks w' = acks w.

(** Primary keys of the stored shipments. *)
Definition ids (w : World) : list nat := map id (shipments w).

(** The shipments of one order. *)
Definition rows_of_order (o : Z) (w : World) : list Shipment :=
  filter (fun s => Z.eqb (order_id s) o) (shipments w).

(** Some instance of [l] has the primary key of [s]. *)
Definition has_id (l : list Shipment) (s : Shipment) : bool :=
  existsb (fun x => Nat.eqb (id x) (id s)) l.

(** Primary keys are unique and below the auto-increment counter. *)
Definition keys_ok (w : World) : Prop :=
  NoDup (ids w) /\ forall s, In s (shipments w) -> id s < next_id w.

(** ** Tracking numbers *)

(** [tracking_no] is stored in some row. *)
Definition in_use (w : World) (t : string) : bool :=
  existsb (fun s => String.eqb (tracking_no s) t) (shipments w).

(** The number [random.randint(1000, 9999)] returns at position [p] of
    the random stream. *)
Definition sample_at (env : Env) (p : nat) : Z :=
  (1000 + random_source env p mod (9999 - 1000 + 1))%Z.

(** The first of the [n] positions from [start] on whose tracking number
    is not in use. *)
Fixpoint first_free (env : Env) (w : World) (start n : nat) : option nat :=
  match n with
  | O => None
  | S n' =>
      if in_use w (Tracking.format_trk (sample_at env start))
      then first_free env w (S start) n'
      else Some start
  end.

Definition is_digit (c : ascii) : bool :=
  Nat.leb 48 (nat_of_ascii c) && Nat.leb (nat_of_ascii c) 57.

(** The pattern [TRK\d{4}]. *)
Definition is_trk4 (t : string) : bool :=
  match t with
  | String "T"%char (String "R"%char (String "K"%char
      (String a (String b (String c (String d EmptyString)))))) =>
      is_digit a && is_digit b && is_digit c && is_digit d
  | _ => false
  end.

(** [P] holds of the [count] integers from [z] on. *)
Fixpoint all_from (P : Z -> bool) (z : Z) (count : nat) : bool :=
  match count with
  | O => true
  | S count' => P z && all_from P (z + 1)%Z count'
  end.

(** Allocation in [w] comes to no end, however many iterations it is
    given and whatever is drawn. *)
Definition allocation_loops_forever (w : World) : Prop :=
  forall (env : Env) (fuel : nat),
    snd (Tracking.unique_tracking_no env fuel w) = Diverge.

(** ** Saving *)

(** The instance [Shipment.save] stores and returns when the clock
    shows [now]. *)
Definition saved (now : Instant) (self : Shipment) : Shipment :=
  set_updated_at now (save_stamps now self).

(** ** Updating a shipment *)

(** What [is_valid] makes of a request for [instance]; the world plays
    no part in it. *)
Definition validated (instance : Shipment) (data : Serializers.UpdateRequest)
    : Res Serializers.UpdateData :=
  snd (Serializers.is_valid instance data empty_world).

(** The history row [ShipmentUpdateSerializer.update] writes at [now]. *)
Definition history_row (now : Instant) (validated_data : Serializers.UpdateData)
    (shipment : Shipment) : ShipmentHistory :=
  mkShipmentHistory (id shipment) (status shipment)
    (or_default (Serializers.v_location validated_data) EmptyString)
    (or_default (Serializers.v_description validated_data)
       ("Status updated to " ++ status_name (status shipment)))
    now.

(** The routing keys [_publish_status_event] publishes for a new status. *)
Definition status_event_types (st : Status) : list string :=
  match st with
  | PENDING => ["shipment.status_updated"]
  | PICKED_UP => ["shipment.picked_up"; "shipment.status_updated"]
  | IN_TRANSIT => ["shipment.in_transit"; "shipment.status_updated"]
  | OUT_FOR_DELIVERY => ["shipment.out_for_delivery"; "shipment.status_updated"]
  | DELIVERED => ["shipment.delivered"; "shipment.status_updated"]
  | CANCELLED => ["shipment.cancelled"; "shipment.status_updated"]
  | FAILED => ["shipment.failed"; "shipment.status_updated"]
  end.

(** Two requests agree on every key the update serializer declares. *)
Definition same_declared_fields (a b : Serializers.UpdateRequest) : Prop :=
  Serializers.req_status a = Serializers.req_status b /\
  Serializers.req_location a = Serializers.req_location b /\
  Serializers.req_description a = Serializers.req_description b /\
  Serializers.req_notes a = Serializers.req_notes b /\
  Serializers.req_actual_weight a = Serializers.req_actual_weight b.

(** ** Timestamps along a run *)

(** Row [s'] is row [s] untouched, or an instance loaded from [s], with
    its timestamps as loaded, after [Shipment.save]. *)
Definition row_step (s s' : Shipment) : Prop :=
  s' = s \/
  exists now x,
    id x = id s /\ shipped_at x = shipped_at s /\
    delivered_at x = delivered_at s /\ s' = saved now x.

(** Row [s'] was inserted in world [w]. *)
Definition new_row (w : World) (s' : Shipment) : Prop :=
  id s' = next_id w /\ status s' = PENDING /\
  shipped_at s' = None /\ delivered_at s' = None.

(** What one operation does to the table [shipments]. *)
Definition table_step (w w' : World) : Prop :=
  next_id w <= next_id w' /\
  (keys_ok w -> keys_ok w') /\
  forall s', In s' (shipments w') ->
             new_row w s' \/
             exists s, In s (shipments w) /\ id s' = id s /\ row_step s s'.

(** A timestamp [stamp] of the shipment goes with the statuses [sts]
    along the trace. *)
Definition stamp_follows (stamp : Shipment -> option Instant) (sts : list Status)
    (tr : list World) (s : Shipment) : Prop :=
  stamp s <> None <-> reached tr (id s) sts.

(** A timestamp that was set in an earlier world of the trace is the
    timestamp of [s]. *)
Definition stamp_kept (stamp : Shipment -> option Instant) (tr : list World)
    (s : Shipment) : Prop :=
  forall w0 s0 t,
    In w0 tr -> In s0 (shipments w0) -> id s0 = id s ->
    stamp s0 = Some t -> stamp s = Some t.

(** The invariant of a trace, stated of its newest world. *)
Definition trace_ok (tr : list World) : Prop :=
  match tr with
  | [] => True
  | w :: _ =>
      keys_ok w /\
      (forall w0 s0, In w0 tr -> In s0 (shipments w0) -> id s0 < next_id w) /\
      forall s, In s (shipments w) ->
        stamp_follows shipped_at [PICKED_UP; IN_TRANSIT] tr s /\
        stamp_follows delivered_at [DELIVERED] tr s /\
        stamp_kept shipped_at tr s /\ stamp_kept delivered_at tr s
  end.

(** How a timestamp [stamp] that goes with the statuses [sts] moves
    from a row [s] to the row [s'] an operation makes of it. *)
Definition stamp_step (stamp : Shipment -> option Instant) (sts : list Status)
    (s s' : Shipment) : Prop :=
  (stamp s <> None -> stamp s' = stamp s) /\
  (stamp s' <> None -> stamp s <> None \/ status_in (status s') sts = true) /\
  (status_in (status s') sts = true -> stamp s' <> None \/ s' = s).

(** ** Environments, worlds and requests of the examples *)

(** Three environments of the examples: a broker that serves every
    call, the same with publishing switched off in the settings, and a
    broker that fails every call.  The random stream counts 0, 1, 2, ... *)
Definition int32_range : Z * Z := (- 2147483648, 2147483647)%Z.

Definition healthy_env : Env :=
  mkEnv (mkSettings true "shipping_events") Z.of_nat (fun _ => NoFault) int32_range.

Definition disabled_env : Env :=
  mkEnv (mkSettings false "shipping_events") Z.of_nat (fun _ => NoFault) int32_range.

Definition failing_env : Env :=
  mkEnv (mkSettings true "shipping_events") Z.of_nat (fun _ => Error) int32_range.

(** The message [{"order_id": 42}]. *)
Definition order_42 : option Consumer.Message :=
  Some (Consumer.mkMessage (Some 42%Z) None).

(** The request [{"order_id": 42, "carrier": "DHL"}]. *)
Definition create_42 : Serializers.CreateRequest :=
  Serializers.mkCreateRequest (Some 42%Z) (Some DHL) None None None None.

(** The request body [{"status": s}]. *)
Definition status_request (s : string) : Serializers.UpdateRequest :=
  Serializers.mkUpdateRequest (Some s) None None None None
    None None None None None None.

(** The request [{"status": "PICKED_UP"}] with values for the fields
    the update serializer does not declare. *)
Definition meddling_request : Serializers.UpdateRequest :=
  Serializers.mkUpdateRequest (Some "PICKED_UP") None None None None
    (Some 99%Z) (Some "TRK0000") (Some "FedEx") (Some 1%Z) (Some 2%Z) (Some 3%Z).

(** A world in which each of the 9000 numbers TRK1000 .. TRK9999 is the
    tracking number of a stored shipment. *)
Definition full_pool_world : World :=
  with_next_id (10 * 1000)
    (with_shipments
       (map (fun n => mkShipment n (Z.of_nat n) (Tracking.format_trk (Z.of_nat n))
                        DHL PENDING None None 0%Z 0%Z None None None None)
            (seq 1000 (9 * 1000)))
       empty_world).

(** A shipment of order 42, pending, and the world that stores just
    this shipment. *)
Definition pending_shipment : Shipment :=
  mkShipment 1 42 "TRK5000" DHL PENDING None None 0%Z 0%Z
    (Some "12 Hill Road") None None None.

Definition pending_world : World :=
  with_next_id 2 (with_shipments [pending_shipment] (with_clock 9%Z empty_world)).

(** The world after the request [create_42] on the empty world, and the
    row it stores. *)
Definition created_world : World :=
  fst (Views.create healthy_env 0 create_42 empty_world).

Definition created_shipment : Shipment :=
  mkShipment 1 42 "TRK1000" DHL PENDING None None 0%Z 1%Z None None None None.

(** The world after that shipment was then picked up, and its row. *)
Definition picked_up_world : World :=
  fst (run_op healthy_env 0 (ApiPartialUpdate 1 (status_request "PICKED_UP"))
         created_world).

Definition picked_up_shipment : Shipment :=
  mkShipment 1 42 "TRK1000" DHL PICKED_UP (Some 2%Z) None 0%Z 2%Z None None None None.

(** ** Rows from one operation to the next *)

(** The status changes the code writes: those of the dictionary of
    [validate_status], and the cancellation of a shipment in transit
    that the loop of [handle_order_cancelled] contains. *)
Definition effective_transition (a b : Status) : Prop :=
  In b (Serializers.dict_get Serializers.valid_transitions a []) \/
  (a = IN_TRANSIT /\ b = CANCELLED).

(** Row [s'] carries the key and the descriptive fields of row [s]. *)
Definition same_identity (s s' : Shipment) : Prop :=
  id s' = id s /\ order_id s' = order_id s /\
  tracking_no s' = tracking_no s /\ carrier s' = carrier s /\
  created_at s' = created_at s /\
  shipping_address s' = shipping_address s /\
  estimated_delivery s' = estimated_delivery s.

(** Row [s'] is row [s] after at most one status change. *)
Definition row_change (s s' : Shipment) : Prop :=
  same_identity s s' /\
  (status s' = status s \/ effective_transition (status s) (status s')).

(** Row [s'] can be inserted in [w]: next key, pending, and a tracking
    number of four digits that no stored row has. *)
Definition inserted_row (w : World) (s' : Shipment) : Prop :=
  id s' = next_id w /\ status s' = PENDING /\
  in_use w (tracking_no s') = false /\ is_trk4 (tracking_no s') = true.

(** The three shapes of what an operation does to [shipments]: rows
    changed in place, one row inserted, rows deleted. *)
Definition rows_step (w w' : World) : Prop :=
  Forall2 row_change (shipments w) (shipments w') \/
  (exists s', shipments w' = s' :: shipments w /\ inserted_row w s') \/
  (exists f, shipments w' = filter f (shipments w)).

(** Tracking numbers are pairwise different and of the form [TRK\d{4}]. *)
Definition tracking_ok (w : World) : Prop :=
  NoDup (map tracking_no (shipments w)) /\
  forall s, In s (shipments w) -> is_trk4 (tracking_no s) = true.

(** The row [ShipmentViewSet.create] stores in [w] for a request with
    order id [o], carrier [c] and the tracking number [t]. *)
Definition created_row (w : World) (data : Serializers.CreateRequest) (o : Z)
    (c : Carrier) (t : string) : Shipment :=
  mkShipment (next_id w) o t c PENDING None None (clock w) (clock w + 1)%Z
    (Serializers.c_shipping_address data) (Serializers.c_estimated_delivery data)
    (Serializers.c_actual_weight data) (Serializers.c_notes data).

(** ** History rows *)

(** Every history row belongs to a stored shipment and records a status
    other than the initial one. *)
Definition history_ok (w : World) : Prop :=
  forall h, In h (history w) ->
            In (h_shipment h) (ids w) /\ h_status h <> PENDING.




(** ** Events *)


(** ** Deliveries of one message *)

(** The world after the broker has delivered the same message [n] times
    to [message_callback], as it does with a message that is rejected
    with [requeue=True]. *)
Fixpoint redeliver (env : Env) (fuel : nat) (routing_key : string)
    (body : option Consumer.Message) (n : nat) (w : World) : World :=
  match n with
  | 0 => w
  | S n' =>
      redeliver env fuel routing_key body n'
        (fst (Consumer.message_callback env fuel routing_key body w))
  end.

(** ** The publisher's connection *)

(** [self.connection and not self.connection.is_closed]. *)
Definition connected (w : World) : bool :=
  match Publisher.self_connection w with
  | Some Open => true
  | _ => false
  end.

(** An open connection of the publisher has its channel open, as it
    does unless a [connect] got its connection and then failed to open
    the channel. *)
Definition publisher_usable (w : World) : Prop :=
  connected w = true -> Publisher.self_channel w = Some ChannelOpen.

(** The broker interactions a successful [publish] makes: the
    publication, after the three of [connect] unless connected. *)
Definition interactions (w : World) : nat :=
  if connected w then 1 else 4.

(** ** Timestamps and the current status *)

(** A shipment that is or was on its way has a shipping time. *)
Definition shipped_ok (s : Shipment) : Prop :=
  In (status s) [PICKED_UP; IN_TRANSIT; OUT_FOR_DELIVERY; DELIVERED; FAILED] ->
  shipped_at s <> None.

(* ================================================================== *)
(** * The status state machine *)
(* ================================================================== *)

Lemma Status_eqb_eq (a b : Status) : Status_eqb a b = true <-> a = b.
Proof.
  unfold Status_eqb. destruct (Status_eq_dec a b); split; congruence.
Qed.

Lemma Status_eqb_refl (a : Status) : Status_eqb a a = true.
Proof. apply Status_eqb_eq. reflexivity. Qed.

Lemma status_in_In (v : Status) (xs : list Status) :
  status_in v xs = true <-> In v xs.
Proof.
  unfold status_in. rewrite existsb_exists. split.
  - intros [x [Hx Hv]]. apply Status_eqb_eq in Hv. subst. exact Hx.
  - intros H. exists v. split; [exact H | apply Status_eqb_refl].
Qed.

(** The dictionary of the code and the table of the specification agree
    on every key, so the default of [.get] is never used. *)
Lemma valid_transitions_is_table (from : Status) :
  Serializers.dict_get Serializers.valid_transitions from [] = transition_table from.
Proof. destruct from; reflexivity. Qed.

(** [validate_status] as one equation. *)
Lemma validate_status_eq (instance : Shipment) (to : Status) :
  Serializers.validate_status (Some instance) to =
  if Status_eqb to (status instance) || status_in to (transition_table (status instance))
  then Ret to
  else Raise (invalid_transition (status instance) to).
Proof.
  unfold Serializers.validate_status. rewrite valid_transitions_is_table.
  destruct (Status_eqb to (status instance)); simpl; [reflexivity |].
  destruct (status_in to (transition_table (status instance))); reflexivity.
Qed.

(** C1.  For every current status [status instance] and requested status
    [to], [validate_status] accepts [to] exactly when [to] is in the
    table entry of the current status or equals it; every other request
    raises the invalid-transition error, and from a terminal status
    ([DELIVERED], [CANCELLED]) every different status is rejected so. *)
Theorem validate_status_accepts_iff_table :
  forall (instance : Shipment) (to : Status),
    (Serializers.validate_status (Some instance) to = Ret to <->
       In to (transition_table (status instance)) \/ to = status instance) /\
    (Serializers.validate_status (Some instance) to = Ret to \/
     Serializers.validate_status (Some instance) to
       = Raise (invalid_transition (status instance) to)) /\
    (is_terminal (status instance) = true <->
       status instance = DELIVERED \/ status instance = CANCELLED) /\
    (is_terminal (status instance) = true -> to <> status instance ->
       Serializers.validate_status (Some instance) to
         = Raise (invalid_transition (status instance) to)).
Proof.
  intros instance to. rewrite validate_status_eq.
  destruct (Status_eqb to (status instance)) eqn:Heq; simpl.
  - apply Status_eqb_eq in Heq. repeat split; auto.
    + destruct (status instance); simpl; intros; (discriminate || auto).
    + intros [H | H]; rewrite H; reflexivity.
    + congruence.
  - assert (Hne : to <> status instance).
    { intros H. apply Status_eqb_eq in H. congruence. }
    destruct (status_in to (transition_table (status instance))) eqn:Hin.
    + apply status_in_In in Hin. repeat split; auto.
      * destruct (status instance); simpl; intros; (discriminate || auto).
      * intros [H | H]; rewrite H; reflexivity.
      * intros Ht _. destruct (status instance); simpl in *;
          solve [discriminate | contradiction].
    + assert (Hnin : ~ In to (transition_table (status instance))).
      { intros H. apply status_in_In in H. congruence. }
      repeat split; auto.
      * intros H. discriminate H.
      * intros [H | H]; contradiction.
      * destruct (status instance); simpl; intros; (discriminate || auto).
      * intros [H | H]; rewrite H; reflexivity.
Qed.

(** C1 at a delivered shipment: a request to cancel it is rejected. *)
Lemma validate_status_accepts_iff_table_witness :
  Serializers.validate_status
    (Some (mkShipment 1 42 "TRK1000" DHL DELIVERED (Some 3%Z) (Some 9%Z) 0%Z 9%Z
             None None None None)) CANCELLED
  = Raise (invalid_transition DELIVERED CANCELLED).
Proof.
  apply (validate_status_accepts_iff_table
           (mkShipment 1 42 "TRK1000" DHL DELIVERED (Some 3%Z) (Some 9%Z) 0%Z 9%Z
              None None None None) CANCELLED).
  - reflexivity.
  - discriminate.
Defined.

(* ================================================================== *)
(** * The publisher *)
(* ================================================================== *)

Lemma tables_kept_refl (w : World) : tables_kept w w.
Proof. repeat split. Qed.

Lemma tables_kept_trans (w1 w2 w3 : World) :
  tables_kept w1 w2 -> tables_kept w2 w3 -> tables_kept w1 w3.
Proof.
  unfold tables_kept. intros H12 H23.
  decompose [and] H12. decompose [and] H23. repeat split; congruence.
Qed.

#[local] Hint Resolve tables_kept_refl : core.

(** Unfolds the statements of the publisher down to the world. *)
Ltac run_publisher :=
  unfold Publisher.publish, Publisher.close, Publisher.connect,
    Publisher.basic_publish, Publisher.broker_call, Publisher.get_publisher,
    Publisher.lose_connection, Publisher.close_channel, Publisher.set_connection,
    Publisher.set_channel, Publisher.self_connection, Publisher.self_channel,
    try_except, bind, ret, raise, gets, modify;
  simpl.

(** What the next broker interaction does decides the case. *)
Ltac case_broker :=
  match goal with
  | |- context [match broker ?e ?n with _ => _ end] =>
      destruct (broker e n); simpl
  end.

(** [close] never raises and touches only the publisher. *)
Lemma close_spec (env : Env) (w : World) :
  exists w', Publisher.close env w = (w', Ret tt) /\
             tables_kept w w' /\ outbox w' = outbox w /\ delivered w' = delivered w.
Proof.
  destruct w as [sh hi ni cl rp pub bp de ob ac].
  destruct pub as [[[[]|] [[]|]]|]; run_publisher;
    repeat case_broker; eexists; repeat split.
Qed.

(** [publish] never raises either: every exception of pika ends in
    [return False], and nothing but the publisher and the broker's log
    of accepted messages has changed. *)
Lemma publish_spec (env : Env) (routing_key : string) (message : Payload) (w : World) :
  exists w' b, Publisher.publish env routing_key message w = (w', Ret b) /\
               tables_kept w w' /\ outbox w' = outbox w.
Proof.
  destruct w as [sh hi ni cl rp pub bp de ob ac].
  destruct pub as [[[[]|] [[]|]]|]; run_publisher;
    repeat case_broker; do 2 eexists; repeat split.
Qed.

(** [publish_event] returns a boolean whatever the broker does. *)
Lemma publish_event_spec (env : Env) (event_type : string) (data : Payload) (w : World) :
  exists w' b, Publisher.publish_event env event_type data w = (w', Ret b) /\
               tables_kept w w' /\ outbox w' = (outbox w ++ [(event_type, data)])%list.
Proof.
  unfold Publisher.publish_event.
  unfold bind at 1. unfold modify at 1.
  destruct (RABBITMQ_ENABLED (settings env)); simpl.
  - unfold bind at 1.
    destruct (Publisher.get_publisher _) as [w1 r1] eqn:E1.
    unfold Publisher.get_publisher, modify in E1. inversion E1; subst; clear E1.
    match goal with
    | |- context [Publisher.publish env event_type data ?w0] =>
        destruct (publish_spec env event_type data w0) as (w' & b & Hp & Hk & Ho)
    end.
    exists w', b. rewrite Hp. split; [reflexivity |].
    split.
    + eapply tables_kept_trans; [| exact Hk].
      destruct (_publisher w); repeat split.
    + rewrite Ho. destruct (_publisher w); reflexivity.
  - eexists; eexists; split; [reflexivity |]. split; repeat split.
Qed.

(** C9 (as amended).  With [RABBITMQ_ENABLED] false, [publish_event]
    returns [False] at once: no publisher is created, the broker is not
    contacted and no message is delivered; only the call is on record. *)
Theorem publish_event_disabled_returns_false :
  forall (env : Env) (event_type : string) (data : Payload) (w : World),
    RABBITMQ_ENABLED (settings env) = false ->
    Publisher.publish_event env event_type data w
      = (with_outbox (outbox w ++ [(event_type, data)]) w, Ret false) /\
    _publisher (fst (Publisher.publish_event env event_type data w)) = _publisher w /\
    broker_pos (fst (Publisher.publish_event env event_type data w)) = broker_pos w /\
    delivered (fst (Publisher.publish_event env event_type data w)) = delivered w.
Proof.
  intros env event_type data w Hoff.
  assert (E : Publisher.publish_event env event_type data w
              = (with_outbox (outbox w ++ [(event_type, data)]) w, Ret false)).
  { unfold Publisher.publish_event, bind, modify. rewrite Hoff. reflexivity. }
  rewrite E. repeat split.
Qed.

Lemma publish_event_disabled_returns_false_witness :
  RABBITMQ_ENABLED (settings disabled_env) = false /\
  Publisher.publish_event disabled_env "shipment.created" [] empty_world
    = (with_outbox [("shipment.created", [])] empty_world, Ret false).
Proof.
  split; [reflexivity |].
  apply (publish_event_disabled_returns_false
           disabled_env "shipment.created" [] empty_world).
  reflexivity.
Defined.

(** C9 as stated fails: the value returned when publishing is disabled
    is [False], the value a failed publication returns, and not the
    [True] of a successful one. *)
Lemma publish_event_disabled_reports_like_failure :
  snd (Publisher.publish_event disabled_env "shipment.created" [] empty_world)
    = Ret false /\
  snd (Publisher.publish_event failing_env "shipment.created" [] empty_world)
    = Ret false /\
  snd (Publisher.publish_event healthy_env "shipment.created" [] empty_world)
    = Ret true.
Proof. repeat split. Qed.

(* ================================================================== *)
(** * Tracking numbers *)
(* ================================================================== *)

Lemma first_free_rand_pos (env : Env) (w : World) (p start n : nat) :
  first_free env (with_rand_pos p w) start n = first_free env w start n.
Proof.
  revert start. induction n as [| n IH]; intros start; simpl; [reflexivity |].
  rewrite IH. reflexivity.
Qed.

Lemma first_free_Some (env : Env) (w : World) (n : nat) :
  forall start p,
    first_free env w start n = Some p ->
    start <= p < start + n /\
    in_use w (Tracking.format_trk (sample_at env p)) = false.
Proof.
  induction n as [| n IH]; intros start p H; simpl in H; [discriminate |].
  destruct (in_use w (Tracking.format_trk (sample_at env start))) eqn:E.
  - apply IH in H. destruct H as [Hr Hf]. split; [lia | exact Hf].
  - inversion H; subst. split; [lia | exact E].
Qed.

Lemma first_free_None (env : Env) (w : World) (n : nat) :
  forall start,
    first_free env w start n = None <->
    (forall p, start <= p < start + n ->
               in_use w (Tracking.format_trk (sample_at env p)) = true).
Proof.
  induction n as [| n IH]; intros start; simpl.
  - split; [intros _ p Hp; lia | reflexivity].
  - destruct (in_use w (Tracking.format_trk (sample_at env start))) eqn:E.
    + rewrite IH. split.
      * intros H p Hp. destruct (Nat.eq_dec p start) as [-> | Hne];
          [exact E | apply H; lia].
      * intros H p Hp. apply H. lia.
    + split; [discriminate |].
      intros H. rewrite H in E; [discriminate | lia].
Qed.

(** The loop, iteration by iteration, is the search [first_free]. *)
Lemma while_exists_eq (env : Env) (fuel : nat) :
  forall (w : World) (t : string),
    Tracking.while_exists env fuel t w =
    if in_use w t
    then match first_free env w (rand_pos w) fuel with
         | Some p => (with_rand_pos (S p) w,
                      Ret (Tracking.format_trk (sample_at env p)))
         | None => (with_rand_pos (rand_pos w + fuel) w, Diverge)
         end
    else (w, Ret t).
Proof.
  induction fuel as [| fuel IH]; intros w t.
  - simpl. unfold bind, Objects.tracking_no_exists, gets. fold (in_use w t).
    destruct (in_use w t); [| reflexivity].
    unfold lift. rewrite Nat.add_0_r. destruct w; reflexivity.
  - simpl. unfold bind at 1. unfold Objects.tracking_no_exists, gets.
    fold (in_use w t).
    destruct (in_use w t); [| reflexivity].
    unfold bind, Tracking.draw_tracking_no, Tracking.randint, bind, ret.
    fold (sample_at env (rand_pos w)).
    rewrite IH.
    change (in_use (with_rand_pos (S (rand_pos w)) w)
              (Tracking.format_trk (sample_at env (rand_pos w))))
      with (in_use w (Tracking.format_trk (sample_at env (rand_pos w)))).
    destruct (in_use w (Tracking.format_trk (sample_at env (rand_pos w))));
      [| reflexivity].
    rewrite first_free_rand_pos.
    change (rand_pos (with_rand_pos (S (rand_pos w)) w)) with (S (rand_pos w)).
    destruct (first_free env w (S (rand_pos w)) fuel); [reflexivity |].
    rewrite Nat.add_succ_r. reflexivity.
Qed.

Lemma unique_tracking_no_eq (env : Env) (fuel : nat) (w : World) :
  Tracking.unique_tracking_no env fuel w =
  match first_free env w (rand_pos w) (S fuel) with
  | Some p => (with_rand_pos (S p) w, Ret (Tracking.format_trk (sample_at env p)))
  | None => (with_rand_pos (rand_pos w + S fuel) w, Diverge)
  end.
Proof.
  unfold Tracking.unique_tracking_no, bind at 1.
  unfold Tracking.draw_tracking_no, Tracking.randint, bind, ret.
  fold (sample_at env (rand_pos w)).
  rewrite while_exists_eq. simpl first_free.
  change (in_use (with_rand_pos (S (rand_pos w)) w)
            (Tracking.format_trk (sample_at env (rand_pos w))))
    with (in_use w (Tracking.format_trk (sample_at env (rand_pos w)))).
  destruct (in_use w (Tracking.format_trk (sample_at env (rand_pos w))));
    [| reflexivity].
  rewrite first_free_rand_pos.
  change (rand_pos (with_rand_pos (S (rand_pos w)) w)) with (S (rand_pos w)).
  destruct (first_free env w (S (rand_pos w)) fuel); [reflexivity |].
  rewrite Nat.add_succ_r. reflexivity.
Qed.

Lemma sample_at_range (env : Env) (p : nat) :
  (1000 <= sample_at env p <= 9999)%Z.
Proof.
  unfold sample_at.
  pose proof (Z.mod_pos_bound (random_source env p) (9999 - 1000 + 1)%Z) as H.
  lia.
Qed.

Lemma all_from_spec (P : Z -> bool) (count : nat) :
  forall z, all_from P z count = true ->
            forall n, (z <= n < z + Z.of_nat count)%Z -> P n = true.
Proof.
  induction count as [| count IH]; intros z H n Hn; [lia |].
  cbn [all_from] in H. apply andb_true_iff in H. destruct H as [Hz Hrest].
  destruct (Z.eq_dec n z) as [-> | Hne]; [exact Hz |].
  apply (IH (z + 1)%Z Hrest). lia.
Qed.

Lemma format_trk_four_digits_all :
  all_from (fun n => is_trk4 (Tracking.format_trk n)) 1000 (9 * 1000) = true.
Proof. vm_compute. reflexivity. Qed.

Lemma format_trk_four_digits (n : Z) :
  (1000 <= n <= 9999)%Z -> is_trk4 (Tracking.format_trk n) = true.
Proof.
  intros Hn.
  apply (all_from_spec (fun n => is_trk4 (Tracking.format_trk n)) (9 * 1000) 1000
           format_trk_four_digits_all).
  lia.
Qed.

Lemma full_pool_in_use (n : Z) :
  (1000 <= n <= 9999)%Z -> in_use full_pool_world (Tracking.format_trk n) = true.
Proof.
  intros Hn. unfold in_use. apply existsb_exists.
  exists (mkShipment (Z.to_nat n) (Z.of_nat (Z.to_nat n))
            (Tracking.format_trk (Z.of_nat (Z.to_nat n)))
            DHL PENDING None None 0%Z 0%Z None None None None).
  split.
  - change (shipments full_pool_world)
      with (map (fun n => mkShipment n (Z.of_nat n)
                            (Tracking.format_trk (Z.of_nat n))
                            DHL PENDING None None 0%Z 0%Z None None None None)
              (seq 1000 (9 * 1000))).
    apply in_map_iff. exists (Z.to_nat n).
    split; [reflexivity | apply in_seq; lia].
  - cbn [tracking_no]. rewrite Z2Nat.id by lia. apply String.eqb_refl.
Qed.

(** When every number a draw can give is in use, no number of
    iterations brings the loop to an end. *)
Lemma exhausted_pool_diverges (env : Env) (fuel : nat) (w : World) :
  (forall n, (1000 <= n <= 9999)%Z -> in_use w (Tracking.format_trk n) = true) ->
  snd (Tracking.unique_tracking_no env fuel w) = Diverge.
Proof.
  intros Hfull. rewrite unique_tracking_no_eq.
  assert (E : first_free env w (rand_pos w) (S fuel) = None).
  { apply first_free_None. intros p _. apply Hfull. apply sample_at_range. }
  rewrite E. reflexivity.
Qed.

(** C6 (as amended).  The allocation returns [TRK] and the four digits
    of a number from 1000 to 9999, a tracking number not in use; it
    returns as soon as one of its draws is free;
    it has no bound on the draws and raises no error: when all of
    TRK1000 .. TRK9999 are in use it never comes to an end.  It writes
    to no table. *)
Theorem unique_tracking_no_unbounded :
  forall (env : Env) (fuel : nat) (w : World),
    (forall t, snd (Tracking.unique_tracking_no env fuel w) = Ret t ->
       is_trk4 t = true /\ in_use w t = false /\
       exists n, (1000 <= n <= 9999)%Z /\ t = Tracking.format_trk n) /\
    (forall p, rand_pos w <= p <= rand_pos w + fuel ->
       in_use w (Tracking.format_trk (sample_at env p)) = false ->
       exists t, snd (Tracking.unique_tracking_no env fuel w) = Ret t) /\
    (forall e, snd (Tracking.unique_tracking_no env fuel w) <> Raise e) /\
    ((forall n, (1000 <= n <= 9999)%Z ->
                in_use w (Tracking.format_trk n) = true) ->
     snd (Tracking.unique_tracking_no env fuel w) = Diverge) /\
    shipments (fst (Tracking.unique_tracking_no env fuel w)) = shipments w.
Proof.
  intros env fuel w. split; [| split; [| split; [| split]]].
  - intros t. rewrite unique_tracking_no_eq.
    destruct (first_free env w (rand_pos w) (S fuel)) as [p |] eqn:E;
      simpl; [| discriminate].
    intros H. inversion H; subst. apply first_free_Some in E.
    split; [apply format_trk_four_digits, sample_at_range |].
    split; [apply E |].
    exists (sample_at env p). split; [apply sample_at_range | reflexivity].
  - intros p Hp Hfree. rewrite unique_tracking_no_eq.
    destruct (first_free env w (rand_pos w) (S fuel)) as [q |] eqn:E; simpl.
    + eexists. reflexivity.
    + exfalso. rewrite first_free_None in E.
      rewrite E in Hfree by lia. discriminate.
  - intros e. rewrite unique_tracking_no_eq.
    destruct (first_free env w (rand_pos w) (S fuel)); simpl; discriminate.
  - apply exhausted_pool_diverges.
  - rewrite unique_tracking_no_eq.
    destruct (first_free env w (rand_pos w) (S fuel)); reflexivity.
Qed.

Lemma unique_tracking_no_unbounded_witness :
  in_use empty_world (Tracking.format_trk (sample_at healthy_env 0)) = false /\
  exists t, snd (Tracking.unique_tracking_no healthy_env 0 empty_world) = Ret t.
Proof.
  split; [reflexivity |].
  apply (unique_tracking_no_unbounded healthy_env 0 empty_world) with (p := 0).
  - simpl. lia.
  - reflexivity.
Defined.

(** C6 as stated fails: with all 9000 numbers in use the allocation
    neither returns nor raises an error of exhaustion. *)
Lemma allocation_loops_forever_on_full_pool :
  allocation_loops_forever full_pool_world.
Proof.
  intros env fuel. apply exhausted_pool_diverges. apply full_pool_in_use.
Qed.

(* ================================================================== *)
(** * Running statements *)
(* ================================================================== *)

Lemma bind_Ret {A B} (m : M A) (k : A -> M B) (w w' : World) (a : A) :
  m w = (w', Ret a) -> bind m k w = k a w'.
Proof. intros H. unfold bind. rewrite H. reflexivity. Qed.

Lemma bind_Raise {A B} (m : M A) (k : A -> M B) (w w' : World) (e : Exn) :
  m w = (w', Raise e) -> bind m k w = (w', Raise e).
Proof. intros H. unfold bind. rewrite H. reflexivity. Qed.

Lemma bind_Diverge {A B} (m : M A) (k : A -> M B) (w w' : World) :
  m w = (w', Diverge) -> bind m k w = (w', Diverge).
Proof. intros H. unfold bind. rewrite H. reflexivity. Qed.

Lemma bind_assoc {A B C} (m : M A) (k : A -> M B) (k' : B -> M C) (w : World) :
  bind (bind m k) k' w = bind m (fun a => bind (k a) k') w.
Proof. unfold bind. destruct (m w) as [w' [a | e |]]; reflexivity. Qed.

(** [Objects.create] of a pending shipment with an order id, as one
    equation: the clock is read for [created_at] and for [updated_at]. *)
Lemma create_eq (env : Env) (o : Z) (t : string) (c : Carrier)
    (address : option string) (eta : option Instant) (weight : option Z)
    (note : option string) (w : World) :
  Objects.create env (Some o) t c PENDING address eta weight note w =
  if negb (Objects.in_integer_range env o)
  then (with_clock (clock w + 1 + 1)%Z w, Raise DataError)
  else if in_use w t
  then (with_clock (clock w + 1 + 1)%Z w,
        Raise (IntegrityError "UNIQUE constraint failed: shipments.tracking_no"))
  else
    let row := mkShipment (next_id w) o t c PENDING None None
                 (clock w) (clock w + 1)%Z address eta weight note in
    (with_next_id (S (next_id w))
       (with_shipments (row :: shipments w) (with_clock (clock w + 1 + 1)%Z w)),
     Ret row).
Proof.
  unfold Objects.create.
  change (status_in PENDING [PICKED_UP; IN_TRANSIT]) with false.
  change (Status_eqb PENDING DELIVERED) with false.
  unfold bind, timezone_now, Objects.tracking_no_exists, gets, modify, raise, ret.
  destruct (Objects.in_integer_range env o); cbn [negb]; [| reflexivity].
  change (existsb (fun s => String.eqb (tracking_no s) t)
            (shipments (with_clock (clock (with_clock (clock w + 1)%Z w) + 1)%Z
                          (with_clock (clock w + 1)%Z w))))
    with (in_use w t).
  destruct (in_use w t); reflexivity.
Qed.

(** [Objects.save] as one equation. *)
Lemma save_eq (self : Shipment) (w : World) :
  Objects.save self w =
  (with_shipments (Objects.update_row (saved (clock w) self) (shipments w))
     (with_clock (clock w + 1)%Z w),
   Ret (saved (clock w) self)).
Proof. reflexivity. Qed.

(** Steps over a call of [publish_event] whose result is dropped. *)
Ltac step_publish_event Hk Hout :=
  match goal with
  | |- context [bind (Publisher.publish_event ?env ?rk ?data) ?k ?w0] =>
      let w' := fresh "w" in
      let b := fresh "b" in
      let Hpub := fresh "Hpub" in
      destruct (publish_event_spec env rk data w0) as (w' & b & Hpub & Hk & Hout);
      erewrite (bind_Ret (Publisher.publish_event env rk data)) by exact Hpub;
      clear Hpub
  end.

(* ================================================================== *)
(** * The handlers of the consumer *)
(* ================================================================== *)

(** The package [shipment.management] has no module [models] and no
    module [rabbitmq_publisher]: both lie one level up, in [shipment]. *)
Lemma import_models_fails (w : World) :
  Consumer.import_from Consumer.PACKAGE "models" w = (w, Raise ModuleNotFoundError).
Proof. reflexivity. Qed.


(** So the first part of [handle_order_confirmed] ends at its first
    statement, for every message and in every world. *)
Lemma confirmed_mutation_raises (env : Env) (fuel : nat)
    (body : option Consumer.Message) (w : World) :
  Consumer.confirmed_mutation env fuel body w = (w, Raise ModuleNotFoundError).
Proof.
  unfold Consumer.confirmed_mutation.
  erewrite bind_Raise by apply import_models_fails. reflexivity.
Qed.


(** Both handlers therefore answer every message with
    [basic_nack(requeue=True)] and do nothing else. *)
Lemma handle_order_confirmed_eq (env : Env) (fuel : nat)
    (body : option Consumer.Message) (w : World) :
  Consumer.handle_order_confirmed env fuel body w
  = (with_acks (acks w ++ [basic_nack true]) w, Ret tt).
Proof.
  unfold Consumer.handle_order_confirmed, try_except.
  erewrite bind_Raise by apply confirmed_mutation_raises. reflexivity.
Qed.

Lemma handle_order_cancelled_eq (env : Env) (body : option Consumer.Message)
    (w : World) :
  Consumer.handle_order_cancelled env body w
  = (with_acks (acks w ++ [basic_nack true]) w, Ret tt).
Proof.
  unfold Consumer.handle_order_cancelled, try_except.
  erewrite bind_Raise by apply import_models_fails. reflexivity.
Qed.

(** [message_callback] by the routing key. *)
Lemma message_callback_eq (env : Env) (fuel : nat) (routing_key : string)
    (body : option Consumer.Message) (w : World) :
  Consumer.message_callback env fuel routing_key body w =
  if String.eqb "order.confirmed" routing_key
     || String.eqb "order.cancelled" routing_key
  then (with_acks (acks w ++ [basic_nack true]) w, Ret tt)
  else (with_acks (acks w ++ [basic_ack]) w, Ret tt).
Proof.
  unfold Consumer.message_callback, Consumer.EVENT_HANDLERS. cbn [find fst].
  destruct (String.eqb "order.confirmed" routing_key);
    [apply handle_order_confirmed_eq |].
  destruct (String.eqb "order.cancelled" routing_key);
    [apply handle_order_cancelled_eq | reflexivity].
Qed.

(** A delivery leaves everything but the log of answers as it was. *)
Lemma message_callback_acks (env : Env) (fuel : nat) (routing_key : string)
    (body : option Consumer.Message) (w : World) :
  exists c,
    Consumer.message_callback env fuel routing_key body w
    = (with_acks (acks w ++ [c]) w, Ret tt) /\
    (c = basic_ack \/ c = basic_nack true).
Proof.
  rewrite message_callback_eq.
  destruct (_ || _); eexists; (split; [reflexivity |]); auto.
Qed.

Lemma with_acks_twice (a b : list ChannelCall) (w : World) :
  with_acks b (with_acks a w) = with_acks b w.
Proof. reflexivity. Qed.

(** A message under a routing key that has a handler is rejected at
    each of its deliveries, whatever its body. *)
Lemma redeliver_handled (env : Env) (fuel : nat) (routing_key : string)
    (body : option Consumer.Message) (n : nat) (w : World) :
  In routing_key (map fst (Consumer.EVENT_HANDLERS env fuel)) ->
  redeliver env fuel routing_key body n w
  = with_acks (acks w ++ repeat (basic_nack true) n) w.
Proof.
  intros Hin.
  assert (Hone : forall w0,
             Consumer.message_callback env fuel routing_key body w0
             = (with_acks (acks w0 ++ [basic_nack true]) w0, Ret tt)).
  { intros w0. rewrite message_callback_eq.
    destruct Hin as [<- | [<- | []]]; reflexivity. }
  revert w. induction n as [| n IH]; intros w.
  - cbn [redeliver repeat]. rewrite app_nil_r. destruct w; reflexivity.
  - cbn [redeliver repeat]. rewrite Hone. cbn [fst]. rewrite IH.
    rewrite with_acks_twice. cbn [acks with_acks].
    rewrite <- app_assoc. reflexivity.
Qed.

(** C2.  The code at the failing inputs.  The message
    [{"order_id": 42}] under [order.confirmed], delivered twice to empty
    tables, is rejected with [requeue=True] both times and no shipment
    of order 42 is stored; delivered when order 42 has a pending
    shipment it is rejected as well, and not acknowledged. *)
Theorem order_confirmed_creates_no_shipment :
  forall (env : Env) (fuel : nat),
    redeliver env fuel "order.confirmed" order_42 2 empty_world
    = with_acks [basic_nack true; basic_nack true] empty_world /\
    rows_of_order 42
      (redeliver env fuel "order.confirmed" order_42 2 empty_world) = [] /\
    Consumer.message_callback env fuel "order.confirmed" order_42 pending_world
    = (with_acks [basic_nack true] pending_world, Ret tt).
Proof.
  intros env fuel.
  assert (E : redeliver env fuel "order.confirmed" order_42 2 empty_world
              = with_acks [basic_nack true; basic_nack true] empty_world).
  { rewrite redeliver_handled by (left; reflexivity). reflexivity. }
  rewrite E. split; [reflexivity |]. split; [reflexivity |].
  rewrite message_callback_eq. reflexivity.
Qed.

(** C3.  The code at the failing input.  The message [{"order_id": 42}]
    under [order.cancelled], delivered when order 42 has a pending
    shipment, is rejected with [requeue=True]; the shipment stays
    [PENDING], no history row is written and no event is published. *)
Theorem order_cancelled_cancels_nothing :
  forall (env : Env) (fuel : nat),
    Consumer.message_callback env fuel "order.cancelled" order_42 pending_world
    = (with_acks [basic_nack true] pending_world, Ret tt) /\
    shipments (with_acks [basic_nack true] pending_world) = [pending_shipment] /\
    status pending_shipment = PENDING /\
    history (with_acks [basic_nack true] pending_world) = [] /\
    outbox (with_acks [basic_nack true] pending_world) = [].
Proof.
  intros env fuel. rewrite message_callback_eq. repeat split.
Qed.


(* ================================================================== *)
(** * Rows and keys *)
(* ================================================================== *)

Lemma NoDup_ids_inj (l : list Shipment) :
  NoDup (map id l) -> forall a b, In a l -> In b l -> id a = id b -> a = b.
Proof.
  induction l as [| c l IH]; intros Hnd a b Ha Hb E; [contradiction |].
  inversion Hnd as [| ? ? Hnotin Hnd']; subst.
  destruct Ha as [-> | Ha], Hb as [-> | Hb]; auto.
  - exfalso. apply Hnotin. rewrite E. apply in_map. exact Hb.
  - exfalso. apply Hnotin. rewrite <- E. apply in_map. exact Ha.
Qed.

Lemma NoDup_ids_filter (f : Shipment -> bool) (l : list Shipment) :
  NoDup (map id l) -> NoDup (map id (filter f l)).
Proof.
  induction l as [| c l IH]; intros Hnd; simpl; [constructor |].
  inversion Hnd as [| ? ? Hnotin Hnd']; subst.
  destruct (f c); simpl; [constructor |]; auto.
  intros Hin. apply Hnotin. apply in_map_iff in Hin.
  destruct Hin as (x & E & Hx). apply filter_In in Hx.
  rewrite <- E. apply in_map. apply Hx.
Qed.

Lemma update_row_ids (self : Shipment) (rows : list Shipment) :
  map id (Objects.update_row self rows) = map id rows.
Proof.
  unfold Objects.update_row. rewrite map_map. apply map_ext.
  intros r. destruct (Nat.eqb (id r) (id self)) eqn:E; [| reflexivity].
  apply Nat.eqb_eq in E. congruence.
Qed.

Lemma update_row_other (self y : Shipment) (rows : list Shipment) :
  In y rows -> id y <> id self -> In y (Objects.update_row self rows).
Proof.
  intros Hin Hne. unfold Objects.update_row. apply in_map_iff.
  exists y. split; [| exact Hin].
  destruct (Nat.eqb (id y) (id self)) eqn:E; [| reflexivity].
  apply Nat.eqb_eq in E. contradiction.
Qed.

Lemma Forall2_same {A} (R : A -> A -> Prop) (l : list A) :
  (forall a, In a l -> R a a) -> Forall2 R l l.
Proof.
  induction l as [| a l IH]; intros H; constructor.
  - apply H. left. reflexivity.
  - apply IH. intros b Hb. apply H. right. exact Hb.
Qed.

Lemma Forall2_In_r {A B} (R : A -> B -> Prop) (l : list A) (l' : list B) :
  Forall2 R l l' -> forall b, In b l' -> exists a, In a l /\ R a b.
Proof.
  induction 1 as [| a b l l' Hab HF IH]; intros b' Hb'; [contradiction |].
  destruct Hb' as [-> | Hb'].
  - exists a. split; [left; reflexivity | exact Hab].
  - destruct (IH b' Hb') as (a' & Ha' & HR). exists a'. split; [right |]; assumption.
Qed.

Lemma filter_nil {A} (f : A -> bool) (l : list A) :
  (forall x, In x l -> f x = false) -> filter f l = [].
Proof.
  induction l as [| a l IH]; intros H; simpl; [reflexivity |].
  rewrite (H a) by (left; reflexivity). apply IH.
  intros x Hx. apply H. right. exact Hx.
Qed.

(* ================================================================== *)
(** * The update of the view set *)
(* ================================================================== *)

Lemma is_valid_eq (instance : Shipment) (data : Serializers.UpdateRequest) (w : World) :
  Serializers.is_valid instance data w = (w, validated instance data).
Proof.
  unfold validated, Serializers.is_valid, bind, ret, raise, lift.
  destruct (Serializers.req_status data) as [raw |]; [| reflexivity].
  destruct (Serializers.status_of_string raw) as [value |]; [| reflexivity].
  destruct (Serializers.validate_status (Some instance) value); reflexivity.
Qed.

Lemma validated_no_diverge (instance : Shipment) (data : Serializers.UpdateRequest) :
  validated instance data <> Diverge.
Proof.
  unfold validated, Serializers.is_valid, bind, ret, raise, lift.
  destruct (Serializers.req_status data) as [raw |]; [| discriminate].
  destruct (Serializers.status_of_string raw) as [value |]; [| discriminate].
  rewrite validate_status_eq.
  destruct (_ || _); discriminate.
Qed.

Lemma get_object_eq (pk : nat) (w : World) :
  Objects.get_object pk w =
  match find (fun s => Nat.eqb (id s) pk) (shipments w) with
  | Some s => (w, Ret s)
  | None => (w, Raise Http404)
  end.
Proof.
  unfold Objects.get_object, bind, gets.
  destruct (find _ _); reflexivity.
Qed.

Lemma history_create_eq (shipment : Shipment) (st : Status)
    (location description : string) (w : World) :
  Objects.history_create shipment st location description w =
  (with_history (mkShipmentHistory (id shipment) st location description (clock w)
                   :: history w)
     (with_clock (clock w + 1)%Z w), Ret tt).
Proof. reflexivity. Qed.

(** [_publish_status_event] publishes the keys of the new status and
    touches no table. *)
Lemma publish_status_event_spec (env : Env) (shipment : Shipment)
    (old_status : Status) (w : World) :
  exists w',
    Views._publish_status_event env shipment old_status w = (w', Ret tt) /\
    tables_kept w w' /\
    map fst (outbox w')
      = (map fst (outbox w) ++ status_event_types (status shipment))%list.
Proof.
  unfold Views._publish_status_event.
  destruct (status shipment);
    repeat (let Hk := fresh "Hk" in let Ho := fresh "Ho" in
            first [ rewrite bind_assoc | step_publish_event Hk Ho
                  | erewrite (bind_Ret (ret _)) by reflexivity ]).
  all: eexists; (split; [reflexivity |]); split.
  all: try (repeat match goal with
        | H : tables_kept _ _ |- _ => revert H
        end; intros; eauto using tables_kept_trans).
  all: repeat match goal with H : outbox _ = _ |- _ => rewrite H; clear H end;
       rewrite ?map_app, <- ?app_assoc; reflexivity.
Qed.

Lemma bind_ret_l {A B} (a : A) (k : A -> M B) (w : World) :
  bind (ret a) k w = k a w.
Proof. reflexivity. Qed.

Lemma update_eq (env : Env) (pk : nat) (data : Serializers.UpdateRequest) (w : World) :
  match find (fun s => Nat.eqb (id s) pk) (shipments w) with
  | None => Views.update env pk data w = (w, Raise Http404)
  | Some instance =>
      match validated instance data with
      | Raise e => Views.update env pk data w = (w, Raise e)
      | Diverge => False
      | Ret validated_data =>
          exists w',
            Views.update env pk data w
              = (w', Ret (saved (clock w) (Serializers.setattrs validated_data instance))) /\
            shipments w'
              = Objects.update_row
                  (saved (clock w) (Serializers.setattrs validated_data instance))
                  (shipments w) /\
            next_id w' = next_id w /\ rand_pos w' = rand_pos w /\ acks w' = acks w /\
            if Status_eqb (status instance)
                 (status (saved (clock w) (Serializers.setattrs validated_data instance)))
            then history w' = history w /\ outbox w' = outbox w
            else history w'
                   = history_row (clock w + 1)%Z validated_data
                       (saved (clock w) (Serializers.setattrs validated_data instance))
                     :: history w /\
                 map fst (outbox w')
                   = (map fst (outbox w)
                      ++ status_event_types
                           (status (saved (clock w)
                                      (Serializers.setattrs validated_data instance))))%list
      end
  end.
Proof.
  unfold Views.update.
  pose proof (get_object_eq pk w) as Eg.
  destruct (find (fun s => Nat.eqb (id s) pk) (shipments w)) as [instance |].
  2:{ erewrite bind_Raise by exact Eg. reflexivity. }
  erewrite (bind_Ret (Objects.get_object _)) by exact Eg.
  pose proof (is_valid_eq instance data w) as Ev.
  pose proof (validated_no_diverge instance data) as Hnd.
  destruct (validated instance data) as [validated_data | e |].
  2:{ erewrite bind_Raise by exact Ev. reflexivity. }
  2:{ congruence. }
  erewrite (bind_Ret (Serializers.is_valid _ _)) by exact Ev.
  unfold Serializers.update, Serializers.super_update.
  rewrite bind_assoc.
  erewrite (bind_Ret (Objects.save _)) by apply save_eq.
  set (shipment := saved (clock w) (Serializers.setattrs validated_data instance)).
  destruct (Status_eqb (status instance) (status shipment)) eqn:Est; cbn [negb].
  - rewrite bind_assoc. rewrite !bind_ret_l. rewrite Est. cbn [negb].
    rewrite bind_ret_l.
    eexists. split; [reflexivity |]. repeat split.
  - rewrite bind_assoc.
    erewrite (bind_Ret (Objects.history_create _ _ _ _)) by apply history_create_eq.
    rewrite bind_ret_l. rewrite Est. cbn [negb].
    match goal with
    | |- context [bind (Views._publish_status_event env shipment ?old) ?k ?w0] =>
        destruct (publish_status_event_spec env shipment old w0)
          as (w' & Ep & Hk & Ho);
        erewrite (bind_Ret (Views._publish_status_event env shipment old))
          by exact Ep
    end.
    destruct Hk as (Hs & Hh & Hn & Hc & Hr & Ha).
    eexists. split; [reflexivity |].
    rewrite Hs, Hh, Hn, Hr, Ha, Ho. repeat split.
Qed.

Lemma saved_fields (now : Instant) (x : Shipment) :
  id (saved now x) = id x /\ order_id (saved now x) = order_id x /\
  tracking_no (saved now x) = tracking_no x /\ carrier (saved now x) = carrier x /\
  created_at (saved now x) = created_at x /\ status (saved now x) = status x /\
  shipped_at (saved now x)
    = (if status_in (status x) [PICKED_UP; IN_TRANSIT] && is_unset (shipped_at x)
       then Some now else shipped_at x) /\
  delivered_at (saved now x)
    = (if Status_eqb (status x) DELIVERED && is_unset (delivered_at x)
       then Some now else delivered_at x).
Proof.
  unfold saved, save_stamps.
  destruct (status_in (status x) [PICKED_UP; IN_TRANSIT] && is_unset (shipped_at x));
    cbn [status set_shipped_at delivered_at];
    destruct (Status_eqb (status x) DELIVERED && is_unset (delivered_at x));
    repeat split.
Qed.

Lemma setattrs_fields (validated_data : Serializers.UpdateData) (x : Shipment) :
  id (Serializers.setattrs validated_data x) = id x /\
  order_id (Serializers.setattrs validated_data x) = order_id x /\
  tracking_no (Serializers.setattrs validated_data x) = tracking_no x /\
  carrier (Serializers.setattrs validated_data x) = carrier x /\
  created_at (Serializers.setattrs validated_data x) = created_at x /\
  shipped_at (Serializers.setattrs validated_data x) = shipped_at x /\
  delivered_at (Serializers.setattrs validated_data x) = delivered_at x.
Proof.
  unfold Serializers.setattrs.
  destruct (Serializers.v_status validated_data),
    (Serializers.v_notes validated_data),
    (Serializers.v_actual_weight validated_data); repeat split.
Qed.

Lemma update_keeps_address (validated_data : Serializers.UpdateData)
    (now : Instant) (x : Shipment) :
  shipping_address (saved now (Serializers.setattrs validated_data x))
    = shipping_address x /\
  estimated_delivery (saved now (Serializers.setattrs validated_data x))
    = estimated_delivery x.
Proof.
  unfold saved, save_stamps, Serializers.setattrs.
  destruct (Serializers.v_status validated_data),
    (Serializers.v_notes validated_data),
    (Serializers.v_actual_weight validated_data);
    repeat match goal with
           | |- context [if ?c then _ else _] => destruct c
           end; split; reflexivity.
Qed.

Lemma is_valid_declared (instance : Shipment) (a b : Serializers.UpdateRequest)
    (w : World) :
  same_declared_fields a b ->
  Serializers.is_valid instance a w = Serializers.is_valid instance b w.
Proof.
  intros (Hs & Hl & Hd & Hn & Hw). unfold Serializers.is_valid.
  rewrite Hs, Hl, Hd, Hn, Hw. reflexivity.
Qed.

(** C10 (as amended).  An update reads only the keys the serializer
    declares; a rejected request changes nothing; an accepted one leaves
    [id], [order_id], [tracking_no], [carrier], [created_at],
    [shipping_address] and [estimated_delivery] of the shipment as they
    were, and [shipped_at] and [delivered_at] too unless
    they were null and the resulting status is [PICKED_UP] or
    [IN_TRANSIT] (for [shipped_at]) or [DELIVERED] (for [delivered_at]),
    in which case [save] sets them to the current time, never to a value
    of the request. *)
Theorem update_writes_declared_fields_only :
  forall (env : Env) (pk : nat) (data : Serializers.UpdateRequest) (w : World),
    (forall data', same_declared_fields data' data ->
                   Views.update env pk data' w = Views.update env pk data w) /\
    Views.partial_update env pk data w = Views.update env pk data w /\
    (forall w' e, Views.update env pk data w = (w', Raise e) -> w' = w) /\
    (forall w' shipment,
       Views.update env pk data w = (w', Ret shipment) ->
       exists instance,
         In instance (shipments w) /\ id instance = pk /\
         shipments w' = Objects.update_row shipment (shipments w) /\
         id shipment = id instance /\
         order_id shipment = order_id instance /\
         tracking_no shipment = tracking_no instance /\
         carrier shipment = carrier instance /\
         created_at shipment = created_at instance /\
         shipped_at shipment
           = (if status_in (status shipment) [PICKED_UP; IN_TRANSIT]
                 && is_unset (shipped_at instance)
              then Some (clock w) else shipped_at instance) /\
         delivered_at shipment
           = (if Status_eqb (status shipment) DELIVERED
                 && is_unset (delivered_at instance)
              then Some (clock w) else delivered_at instance) /\
         shipping_address shipment = shipping_address instance /\
         estimated_delivery shipment = estimated_delivery instance).
Proof.
  intros env pk data w. split; [| split; [| split]].
  - intros data' Hsame. unfold Views.update, bind.
    destruct (Objects.get_object pk w) as [w1 [instance | e |]]; try reflexivity.
    rewrite (is_valid_declared instance data' data w1 Hsame). reflexivity.
  - reflexivity.
  - intros w' e Hrun. pose proof (update_eq env pk data w) as H.
    destruct (find (fun s => Nat.eqb (id s) pk) (shipments w)) as [instance |].
    + destruct (validated instance data) as [vd | e' |].
      * destruct H as (w2 & E & _). congruence.
      * congruence.
      * contradiction.
    + congruence.
  - intros w' shipment Hrun. pose proof (update_eq env pk data w) as H.
    destruct (find (fun s => Nat.eqb (id s) pk) (shipments w)) as [instance |] eqn:Ef;
      [| congruence].
    apply find_some in Ef. destruct Ef as [Hin Hid]. apply Nat.eqb_eq in Hid.
    destruct (validated instance data) as [vd | e' |]; [| congruence | contradiction].
    destruct H as (w2 & E & Hs & _). rewrite E in Hrun. inversion Hrun; subst.
    exists instance.
    destruct (saved_fields (clock w) (Serializers.setattrs vd instance))
      as (S1 & S2 & S3 & S4 & S5 & S6 & S7 & S8).
    destruct (setattrs_fields vd instance) as (A1 & A2 & A3 & A4 & A5 & A6 & A7).
    destruct (update_keeps_address vd (clock w) instance) as [D1 D2].
    rewrite S6.
    repeat split; try assumption; try congruence.
    + rewrite S7, A6. reflexivity.
    + rewrite S8, A7. reflexivity.
Qed.

Lemma update_writes_declared_fields_only_witness :
  same_declared_fields meddling_request (status_request "PICKED_UP") /\
  Views.update healthy_env 1 meddling_request pending_world
  = Views.update healthy_env 1 (status_request "PICKED_UP") pending_world.
Proof.
  assert (H : same_declared_fields meddling_request (status_request "PICKED_UP")).
  { repeat split. }
  split; [exact H |].
  exact (proj1 (update_writes_declared_fields_only healthy_env 1
                  (status_request "PICKED_UP") pending_world)
           meddling_request H).
Defined.

(** C10 as stated fails: a request that moves a pending shipment to
    [PICKED_UP] changes its [shipped_at] from null to the current time. *)
Lemma update_sets_shipped_at :
  map shipped_at (shipments pending_world) = [None] /\
  map shipped_at
    (shipments (fst (Views.update healthy_env 1 (status_request "PICKED_UP")
                       pending_world))) = [Some 9%Z].
Proof. split; reflexivity. Qed.

(* ================================================================== *)
(** * The creation of a shipment *)
(* ================================================================== *)

(** The two tests of [ShipmentCreateSerializer] on [order_id] and the
    range of the column. *)
Lemma range_tests (env : Env) (o : Z) :
  Objects.in_integer_range env o
  = negb (Z.ltb o (fst (integer_field_range env)))
    && negb (Z.ltb (snd (integer_field_range env)) o).
Proof.
  unfold Objects.in_integer_range.
  rewrite (Z.ltb_antisym (fst (integer_field_range env)) o).
  rewrite (Z.ltb_antisym o (snd (integer_field_range env))).
  rewrite !negb_involutive. reflexivity.
Qed.

(** [ShipmentViewSet.create], case by case. *)
Lemma views_create_eq (env : Env) (fuel : nat) (data : Serializers.CreateRequest)
    (w : World) :
  match Serializers.c_order_id data, Serializers.c_carrier data with
  | Some o, Some c =>
      if Objects.in_integer_range env o
      then
        match first_free env w (rand_pos w) (S fuel) with
        | None =>
            Views.create env fuel data w
            = (with_rand_pos (rand_pos w + S fuel) w, Diverge)
        | Some p =>
            exists w',
              Views.create env fuel data w
              = (w', Ret (created_row w data o c
                            (Tracking.format_trk (sample_at env p)))) /\
              shipments w'
              = created_row w data o c (Tracking.format_trk (sample_at env p))
                :: shipments w /\
              next_id w' = S (next_id w) /\ history w' = history w /\
              rand_pos w' = S p /\ acks w' = acks w /\
              map fst (outbox w') = (map fst (outbox w) ++ ["shipment.created"])%list
        end
      else
        exists detail,
          Views.create env fuel data w = (w, Raise (ValidationError detail))
  | _, _ =>
      Views.create env fuel data w
      = (w, Raise (ValidationError "This field is required."))
  end.
Proof.
  unfold Views.create, Serializers.create.
  destruct (Serializers.c_order_id data) as [o |] eqn:Eo; [| reflexivity].
  destruct (Serializers.c_carrier data) as [c |] eqn:Ec; [| reflexivity].
  pose proof (range_tests env o) as Hrange.
  destruct (Z.ltb o (fst (integer_field_range env))).
  { cbn [negb andb] in Hrange. rewrite Hrange. eexists. reflexivity. }
  destruct (Z.ltb (snd (integer_field_range env)) o).
  { cbn [negb andb] in Hrange. rewrite Hrange. eexists. reflexivity. }
  cbn [negb andb] in Hrange. rewrite Hrange.
  rewrite !bind_assoc.
  pose proof (unique_tracking_no_eq env fuel w) as Eu.
  destruct (first_free env w (rand_pos w) (S fuel)) as [p |] eqn:Ef.
  2:{ erewrite bind_Diverge by exact Eu. reflexivity. }
  apply first_free_Some in Ef. destruct Ef as [_ Hfree].
  erewrite (bind_Ret (Tracking.unique_tracking_no _ _)) by exact Eu.
  erewrite (bind_Ret (Objects.create _ _ _ _ _ _ _ _ _))
    by (rewrite create_eq;
        change (Objects.in_integer_range env o) with (Objects.in_integer_range env o);
        rewrite Hrange; cbn [negb];
        change (in_use (with_rand_pos (S p) w) (Tracking.format_trk (sample_at env p)))
          with (in_use w (Tracking.format_trk (sample_at env p)));
        rewrite Hfree; reflexivity).
  step_publish_event Hk Hout.
  destruct Hk as (Hs & Hh & Hn & Hc & Hr & Ha).
  eexists. split; [reflexivity |].
  rewrite Hs, Hh, Hn, Hr, Ha, Hout, map_app. repeat split.
Qed.

(* ================================================================== *)
(** * The tables along a run *)
(* ================================================================== *)

Lemma row_step_refl (s : Shipment) : row_step s s.
Proof. left. reflexivity. Qed.

Lemma table_step_same (w w' : World) :
  shipments w' = shipments w -> next_id w' = next_id w -> table_step w w'.
Proof.
  intros Hs Hn. unfold table_step, keys_ok, ids. rewrite Hs, Hn.
  split; [lia |]. split; [auto |].
  intros s' Hin. right. exists s'. auto using row_step_refl.
Qed.

Lemma table_step_insert (w w' : World) (row : Shipment) :
  shipments w' = row :: shipments w -> next_id w' = S (next_id w) ->
  new_row w row -> table_step w w'.
Proof.
  intros Hs Hn Hnew. unfold table_step, keys_ok, ids. rewrite Hs, Hn.
  split; [lia |]. split.
  - intros [Hnd Hlt]. destruct Hnew as [Hid _]. split.
    + cbn [map]. constructor; [| exact Hnd].
      intros Hin. apply in_map_iff in Hin. destruct Hin as (s & E & Hs').
      apply Hlt in Hs'. lia.
    + intros s [<- | Hin]; [lia |]. apply Hlt in Hin. lia.
  - intros s' [<- | Hin]; [left; exact Hnew |].
    right. exists s'. auto using row_step_refl.
Qed.

Lemma table_step_update (w w' : World) (s x : Shipment) (now : Instant) :
  shipments w' = Objects.update_row (saved now x) (shipments w) ->
  next_id w' = next_id w ->
  In s (shipments w) -> id x = id s ->
  shipped_at x = shipped_at s -> delivered_at x = delivered_at s ->
  table_step w w'.
Proof.
  intros Hs Hn Hin Hid Hsh Hde. unfold table_step, keys_ok, ids. rewrite Hs, Hn.
  split; [lia |]. split.
  - intros [Hnd Hlt]. rewrite update_row_ids. split; [exact Hnd |].
    intros r Hr. unfold Objects.update_row in Hr. apply in_map_iff in Hr.
    destruct Hr as (r0 & E & Hr0).
    destruct (Nat.eqb (id r0) (id (saved now x))) eqn:Eid.
    + apply Nat.eqb_eq in Eid. subst r. rewrite <- Eid. auto.
    + subst r. auto.
  - intros s' Hs'. right. unfold Objects.update_row in Hs'.
    apply in_map_iff in Hs'. destruct Hs' as (r0 & E & Hr0).
    destruct (Nat.eqb (id r0) (id (saved now x))) eqn:Eid.
    + apply Nat.eqb_eq in Eid. subst s'.
      destruct (saved_fields now x) as (S1 & _).
      exists s. split; [exact Hin |]. split; [congruence |].
      right. exists now, x. auto.
    + subst s'. exists r0. auto using row_step_refl.
Qed.

Lemma table_step_delete (w w' : World) (f : Shipment -> bool) :
  shipments w' = filter f (shipments w) -> next_id w' = next_id w ->
  table_step w w'.
Proof.
  intros Hs Hn. unfold table_step, keys_ok, ids. rewrite Hs, Hn.
  split; [lia |]. split.
  - intros [Hnd Hlt]. split; [apply NoDup_ids_filter; exact Hnd |].
    intros s Hin. apply filter_In in Hin. apply Hlt, Hin.
  - intros s' Hin. apply filter_In in Hin. right. exists s'.
    split; [apply Hin |]. auto using row_step_refl.
Qed.

Lemma views_create_step (env : Env) (fuel : nat) (data : Serializers.CreateRequest)
    (w : World) :
  table_step w (fst (Views.create env fuel data w)).
Proof.
  pose proof (views_create_eq env fuel data w) as H.
  destruct (Serializers.c_order_id data) as [o |];
    [| rewrite H; apply table_step_same; reflexivity].
  destruct (Serializers.c_carrier data) as [c |];
    [| rewrite H; apply table_step_same; reflexivity].
  destruct (Objects.in_integer_range env o);
    [| destruct H as (detail & H); rewrite H; apply table_step_same; reflexivity].
  destruct (first_free env w (rand_pos w) (S fuel)) as [p |];
    [| rewrite H; apply table_step_same; reflexivity].
  destruct H as (w' & E & Hs & Hn & _). rewrite E. cbn [fst].
  eapply table_step_insert; [exact Hs | exact Hn |]. repeat split.
Qed.

Lemma message_callback_step (env : Env) (fuel : nat) (routing_key : string)
    (body : option Consumer.Message) (w : World) :
  table_step w (fst (Consumer.message_callback env fuel routing_key body w)).
Proof.
  destruct (message_callback_acks env fuel routing_key body w) as (c & E & _).
  rewrite E. apply table_step_same; reflexivity.
Qed.

Lemma views_update_step (env : Env) (pk : nat) (data : Serializers.UpdateRequest)
    (w : World) :
  table_step w (fst (Views.update env pk data w)).
Proof.
  pose proof (update_eq env pk data w) as H.
  destruct (find (fun s => Nat.eqb (id s) pk) (shipments w)) as [instance |] eqn:Ef.
  - apply find_some in Ef. destruct Ef as [Hin _].
    destruct (validated instance data) as [vd | e |].
    + destruct H as (w' & E & Hs & Hn & _). rewrite E. cbn [fst].
      destruct (setattrs_fields vd instance) as (A1 & _ & _ & _ & _ & A6 & A7).
      eapply table_step_update; eauto.
    + rewrite H. apply table_step_same; reflexivity.
    + contradiction.
  - rewrite H. apply table_step_same; reflexivity.
Qed.

Lemma views_destroy_step (pk : nat) (w : World) :
  table_step w (fst (Views.destroy pk w)).
Proof.
  unfold Views.destroy.
  pose proof (get_object_eq pk w) as Eg.
  destruct (find (fun s => Nat.eqb (id s) pk) (shipments w)) as [instance |].
  - erewrite bind_Ret by exact Eg.
    eapply table_step_delete; reflexivity.
  - erewrite bind_Raise by exact Eg. apply table_step_same; reflexivity.
Qed.

(** Every operation is such a step. *)
Lemma run_op_step (env : Env) (fuel : nat) (op : Op) (w w' : World) (fin : bool) :
  run_op env fuel op w = (w', fin) -> table_step w w'.
Proof.
  intros H.
  assert (E : w' = fst (run_op env fuel op w)) by (rewrite H; reflexivity).
  subst w'. clear H.
  destruct op; cbn [run_op fst].
  - apply views_create_step.
  - apply views_update_step.
  - apply views_update_step.
  - apply views_destroy_step.
  - apply message_callback_step.
Qed.

(** Closes the three parts of [stamp_step] once the timestamps are known. *)
Ltac close_stamp_step :=
  split; [| split]; intros;
  solve [ reflexivity | assumption | congruence | discriminate
        | left; congruence | left; discriminate | left; assumption
        | right; reflexivity ].

Lemma row_step_shipped (s s' : Shipment) :
  row_step s s' -> stamp_step shipped_at [PICKED_UP; IN_TRANSIT] s s'.
Proof.
  intros [-> | (now & x & Hid & Hsh & Hde & ->)]; unfold stamp_step.
  - close_stamp_step.
  - destruct (saved_fields now x) as (_ & _ & _ & _ & _ & S6 & S7 & _).
    rewrite S6, S7, Hsh.
    destruct (status_in (status x) [PICKED_UP; IN_TRANSIT]); cbn [andb];
      [destruct (shipped_at s); cbn [is_unset] |]; close_stamp_step.
Qed.

Lemma row_step_delivered (s s' : Shipment) :
  row_step s s' -> stamp_step delivered_at [DELIVERED] s s'.
Proof.
  intros [-> | (now & x & Hid & Hsh & Hde & ->)]; unfold stamp_step.
  - close_stamp_step.
  - destruct (saved_fields now x) as (_ & _ & _ & _ & _ & S6 & _ & S8).
    rewrite S6, S8, Hde. unfold status_in. cbn [existsb]. rewrite orb_false_r.
    destruct (Status_eqb (status x) DELIVERED); cbn [andb];
      [destruct (delivered_at s); cbn [is_unset] |]; close_stamp_step.
Qed.

Lemma reached_later (tr : list World) (w' : World) (pk : nat) (sts : list Status) :
  reached tr pk sts -> reached (w' :: tr) pk sts.
Proof.
  intros (w0 & s0 & Hw & H). exists w0, s0. split; [right; exact Hw | exact H].
Qed.

Lemma reached_now (tr : list World) (w : World) (s : Shipment) (sts : list Status) :
  In s (shipments w) -> status_in (status s) sts = true ->
  reached (w :: tr) (id s) sts.
Proof.
  intros Hin Hst. exists w, s. split; [left; reflexivity |]. auto.
Qed.

(** One operation keeps a timestamp in step with its statuses. *)
Lemma stamp_step_trace (stamp : Shipment -> option Instant) (sts : list Status)
    (w w' : World) (tr0 : list World) :
  (forall s s', row_step s s' -> stamp_step stamp sts s s') ->
  (forall s', new_row w s' -> stamp s' = None /\ status_in (status s') sts = false) ->
  table_step w w' -> keys_ok w' ->
  (forall w0 s0, In w0 (w :: tr0) -> In s0 (shipments w0) -> id s0 < next_id w) ->
  (forall s, In s (shipments w) ->
             stamp_follows stamp sts (w :: tr0) s /\ stamp_kept stamp (w :: tr0) s) ->
  forall s', In s' (shipments w') ->
             stamp_follows stamp sts (w' :: w :: tr0) s' /\
             stamp_kept stamp (w' :: w :: tr0) s'.
Proof.
  intros Hrow Hnew (Hmono & _ & Hrows) [Hnd' Hlt'] Hbelow IH s' Hin'.
  assert (Hsame : forall s0, In s0 (shipments w') -> id s0 = id s' -> s0 = s').
  { intros s0 Hs0 E. apply (NoDup_ids_inj (shipments w')); auto. }
  destruct (Hrows s' Hin') as [Hn | (s & Hin & Hid & Hstep)].
  - destruct (Hnew s' Hn) as [Hnone Hout]. destruct Hn as [Hid _].
    split.
    + split; [congruence |].
      intros (w0 & s0 & [<- | Hw0] & Hs0 & E & Hst).
      * apply Hsame in Hs0; [| exact E]. subst s0. congruence.
      * specialize (Hbelow w0 s0 Hw0 Hs0). lia.
    + intros w0 s0 t [<- | Hw0] Hs0 E Ht.
      * apply Hsame in Hs0; [| exact E]. subst s0. exact Ht.
      * specialize (Hbelow w0 s0 Hw0 Hs0). lia.
  - destruct (Hrow s s' Hstep) as (Ha & Hb & Hc).
    destruct (IH s Hin) as [Hf Hk]. unfold stamp_follows in *. rewrite Hid.
    split.
    + split.
      * intros Hset. destruct (Hb Hset) as [Hs | Hst].
        -- apply reached_later. apply Hf. exact Hs.
        -- rewrite <- Hid. apply reached_now; assumption.
      * intros (w0 & s0 & [<- | Hw0] & Hs0 & E & Hst).
        -- apply Hsame in Hs0; [| congruence]. subst s0.
           destruct (Hc Hst) as [Hset | ->]; [exact Hset |].
           apply Hf. apply reached_now; assumption.
        -- assert (Hs : stamp s <> None).
           { apply Hf. exists w0, s0. auto. }
           rewrite (Ha Hs). exact Hs.
    + intros w0 s0 t [<- | Hw0] Hs0 E Ht.
      * apply Hsame in Hs0; [| exact E]. subst s0. exact Ht.
      * assert (Hs : stamp s = Some t).
        { apply (Hk w0 s0 t); auto. congruence. }
        rewrite Ha; congruence.
Qed.

(** The invariant holds along every run. *)
Lemma run_trace_ok (env : Env) (tr : list World) : run env tr -> trace_ok tr.
Proof.
  induction 1 as [w Hempty | w tr0 fuel op w' Hrun IH Hop].
  - unfold trace_ok, keys_ok, ids. rewrite Hempty. split; [| split].
    + split; [constructor | intros s []].
    + intros w0 s0 [<- | []] Hs0. rewrite Hempty in Hs0. destruct Hs0.
    + intros s [].
  - apply run_op_step in Hop.
    destruct IH as (Hkeys & Hbelow & Hst).
    assert (Hkeys' : keys_ok w') by (apply Hop; exact Hkeys).
    cbn [trace_ok]. split; [exact Hkeys' |]. split.
    + intros w0 s0 [<- | Hw0] Hs0.
      * apply Hkeys'. exact Hs0.
      * specialize (Hbelow w0 s0 Hw0 Hs0). destruct Hop as [Hmono _]. lia.
    + intros s' Hin'.
      destruct (stamp_step_trace shipped_at [PICKED_UP; IN_TRANSIT] w w' tr0
                  row_step_shipped) with (s' := s') as [F1 K1]; auto.
      { intros r (_ & Hp & Hn & _). rewrite Hp. split; [exact Hn | reflexivity]. }
      { intros s Hs. destruct (Hst s Hs) as (A & _ & C & _). auto. }
      destruct (stamp_step_trace delivered_at [DELIVERED] w w' tr0
                  row_step_delivered) with (s' := s') as [F2 K2]; auto.
      { intros r (_ & Hp & _ & Hn). rewrite Hp. split; [exact Hn | reflexivity]. }
      { intros s Hs. destruct (Hst s Hs) as (_ & B & _ & D). auto. }
Qed.

(** The run of the examples: a shipment is created through the API and
    then picked up. *)
Lemma example_run :
  run healthy_env [picked_up_world; created_world; empty_world].
Proof.
  apply run_step with (fuel := 0)
                      (op := ApiPartialUpdate 1 (status_request "PICKED_UP")).
  - apply run_step with (fuel := 0) (op := ApiCreate create_42).
    + apply run_start. reflexivity.
    + vm_compute. reflexivity.
  - vm_compute. reflexivity.
Qed.

(** C5.  Along every run from an empty table, for every stored shipment:
    [shipped_at] is set exactly when the shipment has had status
    [PICKED_UP] or [IN_TRANSIT] in some world of the run, [delivered_at]
    exactly when it has had [DELIVERED]; and a timestamp the shipment
    had in any world of the run is the timestamp it has now, whatever
    operations came in between. *)
Theorem timestamps_follow_status :
  forall (env : Env) (tr : list World) (w : World),
    run env (w :: tr) ->
    forall s, In s (shipments w) ->
      (shipped_at s <> None <-> reached (w :: tr) (id s) [PICKED_UP; IN_TRANSIT]) /\
      (delivered_at s <> None <-> reached (w :: tr) (id s) [DELIVERED]) /\
      (forall w0 s0 t,
         In w0 (w :: tr) -> In s0 (shipments w0) -> id s0 = id s ->
         (shipped_at s0 = Some t -> shipped_at s = Some t) /\
         (delivered_at s0 = Some t -> delivered_at s = Some t)).
Proof.
  intros env tr w Hrun s Hin.
  apply run_trace_ok in Hrun. destruct Hrun as (_ & _ & Hst).
  destruct (Hst s Hin) as (F1 & F2 & K1 & K2).
  split; [exact F1 |]. split; [exact F2 |].
  intros w0 s0 t Hw0 Hs0 E. split; intros Ht.
  - apply (K1 w0 s0 t); assumption.
  - apply (K2 w0 s0 t); assumption.
Qed.

Lemma timestamps_follow_status_witness :
  run healthy_env [picked_up_world; created_world; empty_world] /\
  In picked_up_shipment (shipments picked_up_world) /\
  (shipped_at picked_up_shipment <> None <->
   reached [picked_up_world; created_world; empty_world]
     (id picked_up_shipment) [PICKED_UP; IN_TRANSIT]).
Proof.
  assert (I : In picked_up_shipment (shipments picked_up_world)).
  { vm_compute. left. reflexivity. }
  split; [exact example_run |]. split; [exact I |].
  apply (timestamps_follow_status healthy_env
           [created_world; empty_world] picked_up_world example_run
           picked_up_shipment I).
Defined.

(* ================================================================== *)
(** * History and events on the update path *)
(* ================================================================== *)

Lemma setattrs_status (validated_data : Serializers.UpdateData) (x : Shipment) :
  status (Serializers.setattrs validated_data x)
  = match Serializers.v_status validated_data with
    | Some v => v
    | None => status x
    end.
Proof.
  unfold Serializers.setattrs.
  destruct (Serializers.v_status validated_data),
    (Serializers.v_notes validated_data),
    (Serializers.v_actual_weight validated_data); reflexivity.
Qed.

(** A status [is_valid] lets through is the current one or one the
    table allows after it. *)
Lemma validated_status (instance : Shipment) (data : Serializers.UpdateRequest)
    (validated_data : Serializers.UpdateData) (v : Status) :
  validated instance data = Ret validated_data ->
  Serializers.v_status validated_data = Some v ->
  v = status instance \/ In v (transition_table (status instance)).
Proof.
  unfold validated, Serializers.is_valid, bind, ret, raise, lift.
  destruct (Serializers.req_status data) as [raw |].
  - destruct (Serializers.status_of_string raw) as [value |]; [| discriminate].
    rewrite validate_status_eq.
    destruct (Status_eqb value (status instance)) eqn:E1; cbn [orb].
    + intros H Hv. inversion H; subst. cbn in Hv. inversion Hv; subst.
      left. apply Status_eqb_eq. exact E1.
    + destruct (status_in value (transition_table (status instance))) eqn:E2;
        [| discriminate].
      intros H Hv. inversion H; subst. cbn in Hv. inversion Hv; subst.
      right. apply status_in_In. exact E2.
  - intros H Hv. inversion H; subst. discriminate Hv.
Qed.

(** On the update path of the view set a status change is a transition
    of the table, writes exactly one history row and publishes the event
    of the new status together with the generic one; an update that
    leaves the status as it is writes no row and publishes nothing. *)
Lemma update_history_and_events (env : Env) (pk : nat)
    (data : Serializers.UpdateRequest) (w w' : World) (shipment : Shipment) :
  Views.update env pk data w = (w', Ret shipment) ->
  exists instance,
    In instance (shipments w) /\ id instance = pk /\
    (status shipment = status instance ->
     history w' = history w /\ outbox w' = outbox w) /\
    (status shipment <> status instance ->
     In (status shipment) (transition_table (status instance)) /\
     (exists row, history w' = row :: history w /\
                  h_shipment row = pk /\ h_status row = status shipment) /\
     map fst (outbox w')
       = (map fst (outbox w) ++ status_event_types (status shipment))%list /\
     In "shipment.status_updated" (status_event_types (status shipment)) /\
     List.length (status_event_types (status shipment)) = 2).
Proof.
  intros Hrun. pose proof (update_eq env pk data w) as H.
  destruct (find (fun s => Nat.eqb (id s) pk) (shipments w)) as [instance |] eqn:Ef;
    [| congruence].
  apply find_some in Ef. destruct Ef as [Hin Hid]. apply Nat.eqb_eq in Hid.
  destruct (validated instance data) as [vd | e' |] eqn:Ev;
    [| congruence | contradiction].
  destruct H as (w2 & E & _ & _ & _ & _ & Hhist). rewrite E in Hrun.
  inversion Hrun; subst w2 shipment. clear Hrun.
  exists instance. split; [exact Hin |]. split; [exact Hid |].
  destruct (saved_fields (clock w) (Serializers.setattrs vd instance))
    as (S1 & _ & _ & _ & _ & S6 & _).
  destruct (setattrs_fields vd instance) as (A1 & _).
  destruct (Status_eqb (status instance)
              (status (saved (clock w) (Serializers.setattrs vd instance)))) eqn:Est.
  - apply Status_eqb_eq in Est. split; [intros _; exact Hhist |].
    intros Hne. congruence.
  - assert (Hne : status instance
                  <> status (saved (clock w) (Serializers.setattrs vd instance))).
    { intros Heq. apply Status_eqb_eq in Heq. congruence. }
    split; [intros Heq; congruence |]. intros _.
    destruct Hhist as [Hh Ho].
    assert (Htab : In (status (saved (clock w) (Serializers.setattrs vd instance)))
                     (transition_table (status instance))).
    { rewrite S6, setattrs_status in *.
      destruct (Serializers.v_status vd) as [v |] eqn:Ev'; [| congruence].
      destruct (validated_status instance data vd v Ev Ev') as [Hv | Hv];
        [exfalso; apply Hne; symmetry; exact Hv | exact Hv]. }
    split; [exact Htab |]. split.
    + eexists. split; [exact Hh |].
      unfold history_row. cbn [h_shipment h_status].
      split; [congruence | reflexivity].
    + split; [exact Ho |]. clear - Htab. revert Htab.
      destruct (status (saved (clock w) (Serializers.setattrs vd instance)));
        intros Htab; cbn; auto.
      destruct (status instance); cbn in Htab; intuition discriminate.
Qed.

(* ================================================================== *)
(** * Rows along a run *)
(* ================================================================== *)

Lemma same_identity_refl (s : Shipment) : same_identity s s.
Proof. repeat split. Qed.

Lemma row_change_refl (s : Shipment) : row_change s s.
Proof. split; [apply same_identity_refl | left; reflexivity]. Qed.

Lemma Forall2_map_r_In {A} (R : A -> A -> Prop) (f : A -> A) (l : list A) :
  (forall a, In a l -> R a (f a)) -> Forall2 R l (map f l).
Proof.
  induction l as [| a l IH]; intros H; cbn [map]; constructor.
  - apply H. left. reflexivity.
  - apply IH. intros b Hb. apply H. right. exact Hb.
Qed.

Lemma rows_step_same (w w' : World) :
  shipments w' = shipments w -> rows_step w w'.
Proof.
  intros Hs. left. rewrite Hs. apply Forall2_same. intros. apply row_change_refl.
Qed.

(** The instance an accepted update saves, against the row it loaded. *)
Lemma update_row_change (instance : Shipment) (data : Serializers.UpdateRequest)
    (validated_data : Serializers.UpdateData) (now : Instant) :
  validated instance data = Ret validated_data ->
  row_change instance (saved now (Serializers.setattrs validated_data instance)).
Proof.
  intros Hv.
  destruct (saved_fields now (Serializers.setattrs validated_data instance))
    as (S1 & S2 & S3 & S4 & S5 & S6 & _).
  destruct (setattrs_fields validated_data instance)
    as (A1 & A2 & A3 & A4 & A5 & _).
  destruct (update_keeps_address validated_data now instance) as [D1 D2].
  split.
  - repeat split; congruence.
  - rewrite S6, setattrs_status.
    destruct (Serializers.v_status validated_data) as [v |] eqn:Ev;
      [| left; reflexivity].
    destruct (validated_status instance data validated_data v Hv Ev) as [-> | Hin].
    + left. reflexivity.
    + right. left. rewrite valid_transitions_is_table. exact Hin.
Qed.

Lemma views_update_rows (env : Env) (pk : nat) (data : Serializers.UpdateRequest)
    (w : World) :
  NoDup (ids w) -> rows_step w (fst (Views.update env pk data w)).
Proof.
  intros Hnd. pose proof (update_eq env pk data w) as H.
  destruct (find (fun s => Nat.eqb (id s) pk) (shipments w)) as [instance |] eqn:Ef.
  - apply find_some in Ef. destruct Ef as [Hin _].
    destruct (validated instance data) as [vd | e |] eqn:Ev.
    + destruct H as (w' & E & Hs & _). rewrite E. cbn [fst].
      left. rewrite Hs. unfold Objects.update_row. apply Forall2_map_r_In.
      intros r Hr.
      destruct (Nat.eqb (id r) (id (saved (clock w) (Serializers.setattrs vd instance))))
        eqn:Eid; [| apply row_change_refl].
      apply Nat.eqb_eq in Eid.
      destruct (saved_fields (clock w) (Serializers.setattrs vd instance)) as (S1 & _).
      destruct (setattrs_fields vd instance) as (A1 & _).
      assert (r = instance).
      { apply (NoDup_ids_inj (shipments w)); auto. congruence. }
      subst r. eapply update_row_change. exact Ev.
    + rewrite H. apply rows_step_same. reflexivity.
    + contradiction.
  - rewrite H. apply rows_step_same. reflexivity.
Qed.

Lemma views_create_rows_step (env : Env) (fuel : nat)
    (data : Serializers.CreateRequest) (w : World) :
  rows_step w (fst (Views.create env fuel data w)).
Proof.
  pose proof (views_create_eq env fuel data w) as H.
  destruct (Serializers.c_order_id data) as [o |];
    [| rewrite H; apply rows_step_same; reflexivity].
  destruct (Serializers.c_carrier data) as [c |];
    [| rewrite H; apply rows_step_same; reflexivity].
  destruct (Objects.in_integer_range env o);
    [| destruct H as (detail & H); rewrite H; apply rows_step_same; reflexivity].
  destruct (first_free env w (rand_pos w) (S fuel)) as [p |] eqn:Ef.
  - apply first_free_Some in Ef. destruct Ef as [_ Hfree].
    destruct H as (w' & E & Hs & _). rewrite E. cbn [fst].
    right. left. eexists. split; [exact Hs |].
    repeat split; cbn [created_row tracking_no]; auto.
    apply format_trk_four_digits, sample_at_range.
  - rewrite H. apply rows_step_same. reflexivity.
Qed.

Lemma views_destroy_rows_step (pk : nat) (w : World) :
  rows_step w (fst (Views.destroy pk w)).
Proof.
  unfold Views.destroy.
  pose proof (get_object_eq pk w) as Eg.
  destruct (find (fun s => Nat.eqb (id s) pk) (shipments w)) as [instance |].
  - erewrite bind_Ret by exact Eg. right. right. eexists. reflexivity.
  - erewrite bind_Raise by exact Eg. apply rows_step_same. reflexivity.
Qed.

Lemma message_callback_rows_step (env : Env) (fuel : nat) (routing_key : string)
    (body : option Consumer.Message) (w : World) :
  rows_step w (fst (Consumer.message_callback env fuel routing_key body w)).
Proof.
  destruct (message_callback_acks env fuel routing_key body w) as (c & E & _).
  rewrite E. apply rows_step_same; reflexivity.
Qed.

(** Every operation changes rows in place, inserts one or deletes. *)
Lemma run_op_rows_step (env : Env) (fuel : nat) (op : Op) (w w' : World) (fin : bool) :
  NoDup (ids w) -> run_op env fuel op w = (w', fin) -> rows_step w w'.
Proof.
  intros Hnd H.
  assert (E : w' = fst (run_op env fuel op w)) by (rewrite H; reflexivity).
  subst w'. clear H.
  destruct op; cbn [run_op fst].
  - apply views_create_rows_step.
  - apply views_update_rows; exact Hnd.
  - apply views_update_rows; exact Hnd.
  - apply views_destroy_rows_step.
  - apply message_callback_rows_step.
Qed.

Lemma Forall2_In_l {A B} (R : A -> B -> Prop) (l : list A) (l' : list B) :
  Forall2 R l l' -> forall a, In a l -> exists b, In b l' /\ R a b.
Proof.
  induction 1 as [| a b l l' Hab HF IH]; intros a' Ha'; [contradiction |].
  destruct Ha' as [-> | Ha'].
  - exists b. split; [left; reflexivity | exact Hab].
  - destruct (IH a' Ha') as (b' & Hb' & HR). exists b'. split; [right |]; assumption.
Qed.

Lemma Forall2_map_eq {A B C} (R : A -> B -> Prop) (f : A -> C) (g : B -> C)
    (l : list A) (l' : list B) :
  (forall a b, R a b -> g b = f a) -> Forall2 R l l' -> map g l' = map f l.
Proof.
  intros H HF. induction HF as [| a b l l' Hab HF IH]; cbn [map]; [reflexivity |].
  rewrite IH, (H a b Hab). reflexivity.
Qed.

(** Deleting rows keeps the tracking numbers of the others distinct. *)
Lemma tracking_nos_filter (keep : Shipment -> bool) (rows : list Shipment) :
  NoDup (map tracking_no rows) -> NoDup (map tracking_no (filter keep rows)).
Proof.
  induction rows as [| r rows IH]; intros Hnd; cbn [filter map]; [constructor |].
  cbn [map] in Hnd. apply NoDup_cons_iff in Hnd. destruct Hnd as [Hfresh Hnd].
  destruct (keep r); cbn [map]; [| apply IH; exact Hnd].
  constructor; [| apply IH; exact Hnd].
  intros Hin. apply Hfresh. apply in_map_iff in Hin.
  destruct Hin as (x & E & Hx). apply filter_In in Hx.
  rewrite <- E. apply in_map. apply Hx.
Qed.

Lemma in_use_false (w : World) (t : string) :
  in_use w t = false -> ~ In t (map tracking_no (shipments w)).
Proof.
  intros Hfree Hin. apply in_map_iff in Hin. destruct Hin as (s & E & Hs).
  assert (Ht : in_use w t = true).
  { unfold in_use. apply existsb_exists. exists s. split; [exact Hs |].
    apply String.eqb_eq. exact E. }
  congruence.
Qed.

(** One operation keeps the tracking numbers unique and well formed. *)
Lemma rows_step_tracking (w w' : World) :
  rows_step w w' -> tracking_ok w -> tracking_ok w'.
Proof.
  intros [HF | [(s' & Hs & Hins) | (f & Hs)]] [Hnd Hfmt]; unfold tracking_ok.
  - split.
    + rewrite (Forall2_map_eq row_change tracking_no tracking_no _ _
                 (fun a b H => proj1 (proj2 (proj2 (proj1 H)))) HF).
      exact Hnd.
    + intros s' Hin'. destruct (Forall2_In_r _ _ _ HF s' Hin') as (s & Hin & Hch).
      destruct Hch as [(_ & _ & Ht & _) _]. rewrite Ht. auto.
  - rewrite Hs. destruct Hins as (_ & _ & Hfree & Hfour). split.
    + cbn [map]. constructor; [apply in_use_false; exact Hfree | exact Hnd].
    + intros s [<- | Hin]; auto.
  - rewrite Hs. split.
    + apply tracking_nos_filter. exact Hnd.
    + intros s Hin. apply filter_In in Hin. apply Hfmt, Hin.
Qed.

(** Along a run the tracking numbers stay unique and well formed. *)
Lemma run_tracking_ok (env : Env) (tr : list World) :
  run env tr -> forall w, In w tr -> tracking_ok w.
Proof.
  induction 1 as [w Hempty | w tr0 fuel op w' Hrun IH Hop]; intros w1 Hin.
  - destruct Hin as [<- | []]. unfold tracking_ok. rewrite Hempty.
    split; [constructor | intros s []].
  - destruct Hin as [<- | Hin]; [| apply IH; exact Hin].
    pose proof (run_trace_ok env _ Hrun) as (Hkeys & _).
    eapply rows_step_tracking; [| apply IH; left; reflexivity].
    eapply run_op_rows_step; [apply Hkeys | exact Hop].
Qed.

Lemma NoDup_map_inj {A B} (f : A -> B) (l : list A) :
  NoDup (map f l) -> forall a b, In a l -> In b l -> f a = f b -> a = b.
Proof.
  induction l as [| c l IH]; intros Hnd a b Ha Hb E; [contradiction |].
  cbn [map] in Hnd. inversion Hnd as [| ? ? Hnotin Hnd']; subst.
  destruct Ha as [-> | Ha], Hb as [-> | Hb]; auto.
  - exfalso. apply Hnotin. rewrite E. apply in_map. exact Hb.
  - exfalso. apply Hnotin. rewrite <- E. apply in_map. exact Ha.
Qed.

(** X1.  Along every run from an empty table the stored tracking numbers
    are pairwise different and each is [TRK] followed by four digits, so
    a tracking number identifies at most one shipment. *)
Theorem tracking_numbers_stay_unique :
  forall (env : Env) (tr : list World) (w : World),
    run env (w :: tr) ->
    NoDup (map tracking_no (shipments w)) /\
    (forall s, In s (shipments w) -> is_trk4 (tracking_no s) = true) /\
    (forall s1 s2, In s1 (shipments w) -> In s2 (shipments w) ->
                   tracking_no s1 = tracking_no s2 -> s1 = s2).
Proof.
  intros env tr w Hrun.
  destruct (run_tracking_ok env _ Hrun w (or_introl eq_refl)) as [Hnd Hfmt].
  split; [exact Hnd |]. split; [exact Hfmt |].
  apply NoDup_map_inj. exact Hnd.
Qed.

Lemma tracking_numbers_stay_unique_witness :
  NoDup (map tracking_no (shipments picked_up_world)).
Proof.
  exact (proj1 (tracking_numbers_stay_unique healthy_env
                  [created_world; empty_world] picked_up_world example_run)).
Defined.

(** What one operation makes of a row that it keeps. *)
Lemma rows_step_pair (w w' : World) :
  keys_ok w -> keys_ok w' -> rows_step w w' ->
  forall s s', In s (shipments w) -> In s' (shipments w') -> id s' = id s ->
               row_change s s'.
Proof.
  intros [Hnd Hlt] [Hnd' _] Hstep s s' Hin Hin' Hid.
  destruct Hstep as [HF | [(r & Hs & Hins) | (f & Hs)]].
  - destruct (Forall2_In_l _ _ _ HF s Hin) as (b & Hb & Hch).
    assert (b = s').
    { apply (NoDup_ids_inj (shipments w')); auto.
      destruct Hch as [(Hi & _) _]. congruence. }
    subst b. exact Hch.
  - rewrite Hs in Hin'. destruct Hin' as [<- | Hin'].
    + destruct Hins as (Hi & _). apply Hlt in Hin. lia.
    + assert (s' = s) by (apply (NoDup_ids_inj (shipments w)); auto).
      subst s'. apply row_change_refl.
  - rewrite Hs in Hin'. apply filter_In in Hin'. destruct Hin' as [Hin' _].
    assert (s' = s) by (apply (NoDup_ids_inj (shipments w)); auto).
    subst s'. apply row_change_refl.
Qed.

(** A stored row is new or comes from a row of the world before. *)
Lemma rows_step_origin (w w' : World) :
  rows_step w w' ->
  forall s', In s' (shipments w') ->
             id s' = next_id w \/
             exists s, In s (shipments w) /\ row_change s s'.
Proof.
  intros [HF | [(r & Hs & Hins) | (f & Hs)]] s' Hin'.
  - right. destruct (Forall2_In_r _ _ _ HF s' Hin') as (s & Hin & Hch). eauto.
  - rewrite Hs in Hin'. destruct Hin' as [<- | Hin'].
    + left. apply Hins.
    + right. exists s'. split; [exact Hin' | apply row_change_refl].
  - rewrite Hs in Hin'. apply filter_In in Hin'. right. exists s'.
    split; [apply Hin' | apply row_change_refl].
Qed.

(** A relation that every row change respects relates each stored row
    to all its earlier versions. *)
Lemma run_lineage (R : Shipment -> Shipment -> Prop) :
  (forall s, R s s) ->
  (forall a b c, R a b -> R b c -> R a c) ->
  (forall s s', row_change s s' -> R s s') ->
  forall (env : Env) (tr : list World) (w : World),
    run env (w :: tr) ->
    forall s w0 s0,
      In s (shipments w) -> In w0 (w :: tr) -> In s0 (shipments w0) ->
      id s0 = id s -> R s0 s.
Proof.
  intros Hrefl Htrans Hstep env tr w Hrun. remember (w :: tr) as tr1 eqn:Etr.
  revert w tr Etr.
  induction Hrun as [w1 Hempty | w1 tr0 fuel op w' Hrun IH Hop];
    intros w tr Etr s w0 s0 Hin Hw0 Hs0 Hid; inversion Etr; subst; clear Etr.
  - rewrite Hempty in Hin. destruct Hin.
  - pose proof (run_trace_ok env _ Hrun) as (Hkeys & Hbelow & _).
    pose proof (run_trace_ok env _ (run_step env _ _ _ _ _ Hrun Hop))
      as (Hkeys' & _).
    pose proof (run_op_rows_step env fuel op w1 w true (proj1 Hkeys) Hop) as Hrows.
    destruct Hw0 as [<- | Hw0].
    + assert (s0 = s).
      { apply (NoDup_ids_inj (shipments w)); auto. apply Hkeys'. }
      subst s0. apply Hrefl.
    + destruct (rows_step_origin w1 w Hrows s Hin) as [Hnew | (s1 & Hin1 & Hch)].
      * specialize (Hbelow w0 s0 Hw0 Hs0). lia.
      * apply Htrans with s1; [| apply Hstep; exact Hch].
        apply (IH w1 tr0 eq_refl s1 w0 s0); auto.
        destruct Hch as [(Hi & _) _]. congruence.
Qed.

Lemma same_identity_trans (a b c : Shipment) :
  same_identity a b -> same_identity b c -> same_identity a c.
Proof.
  unfold same_identity. intros H1 H2.
  decompose [and] H1. decompose [and] H2. repeat split; congruence.
Qed.

(** X2.  Along every run, a stored shipment has the order, tracking
    number, carrier, creation time, address and estimated delivery it
    had in every earlier world of the run. *)
Theorem identity_fields_never_change :
  forall (env : Env) (tr : list World) (w : World),
    run env (w :: tr) ->
    forall s w0 s0,
      In s (shipments w) -> In w0 (w :: tr) -> In s0 (shipments w0) ->
      id s0 = id s ->
      order_id s = order_id s0 /\ tracking_no s = tracking_no s0 /\
      carrier s = carrier s0 /\ created_at s = created_at s0 /\
      shipping_address s = shipping_address s0 /\
      estimated_delivery s = estimated_delivery s0.
Proof.
  intros env tr w Hrun s w0 s0 Hin Hw0 Hs0 Hid.
  assert (H : same_identity s0 s).
  { apply (run_lineage same_identity same_identity_refl same_identity_trans
             (fun a b Hch => proj1 Hch) env tr w Hrun s w0 s0); assumption. }
  destruct H as (_ & H). exact H.
Qed.

Lemma identity_fields_never_change_witness :
  tracking_no picked_up_shipment = tracking_no created_shipment.
Proof.
  assert (H1 : In picked_up_shipment (shipments picked_up_world))
    by (vm_compute; left; reflexivity).
  assert (H2 : In created_world
                 [picked_up_world; created_world; empty_world])
    by (right; left; reflexivity).
  assert (H3 : In created_shipment (shipments created_world))
    by (vm_compute; left; reflexivity).
  exact (proj1 (proj2 (identity_fields_never_change healthy_env
                         [created_world; empty_world] picked_up_world
                         example_run picked_up_shipment created_world
                         created_shipment H1 H2 H3 eq_refl))).
Defined.

(** The status of a stored row is reached from each of its earlier
    statuses by status changes the service performs. *)
Lemma run_status_path (env : Env) (tr : list World) (w : World) :
  run env (w :: tr) ->
  forall s w0 s0,
    In s (shipments w) -> In w0 (w :: tr) -> In s0 (shipments w0) ->
    id s0 = id s ->
    clos_refl_trans Status effective_transition (status s0) (status s).
Proof.
  apply (run_lineage
           (fun a b => clos_refl_trans Status effective_transition (status a) (status b))).
  - intros s. apply rt_refl.
  - intros a b c H1 H2. eapply rt_trans; eassumption.
  - intros s s' [_ [-> | Hstep]]; [apply rt_refl | apply rt_step; exact Hstep].
Qed.

Lemma effective_transition_from_final (a b : Status) :
  a = DELIVERED \/ a = CANCELLED -> ~ effective_transition a b.
Proof.
  intros [-> | ->] [H | [H _]]; cbn in H; try contradiction; discriminate.
Qed.

Lemma effective_transition_to_pending (a : Status) :
  ~ effective_transition a PENDING.
Proof.
  intros [H | [_ H]]; [| discriminate].
  destruct a; cbn in H; intuition discriminate.
Qed.

Lemma path_from_final (a b : Status) :
  clos_refl_trans Status effective_transition a b ->
  a = DELIVERED \/ a = CANCELLED -> b = a.
Proof.
  intros H Ha. apply clos_rt_rt1n in H.
  destruct H as [| y z Hstep _]; [reflexivity |].
  exfalso. exact (effective_transition_from_final a y Ha Hstep).
Qed.

Lemma path_to_pending (a b : Status) :
  clos_refl_trans Status effective_transition a b -> b = PENDING -> a = PENDING.
Proof.
  intros H Hb. apply clos_rt_rtn1 in H.
  destruct H as [| y z Hstep _]; [exact Hb |].
  subst z. exfalso. exact (effective_transition_to_pending y Hstep).
Qed.

(** X3.  One operation of a run changes the status of a shipment it
    keeps by at most one step: the status stays, or moves along an
    entry of the dictionary of [validate_status], or goes from
    [IN_TRANSIT] to [CANCELLED] (the consumer's cancellation). *)
Theorem status_changes_by_one_transition :
  forall (env : Env) (tr : list World) (w w' : World),
    run env (w' :: w :: tr) ->
    forall s s',
      In s (shipments w) -> In s' (shipments w') -> id s' = id s ->
      status s' = status s \/
      In (status s')
         (Serializers.dict_get Serializers.valid_transitions (status s) []) \/
      (status s = IN_TRANSIT /\ status s' = CANCELLED).
Proof.
  intros env tr w w' Hrun s s' Hin Hin' Hid.
  pose proof (run_trace_ok env _ Hrun) as (Hkeys' & _).
  inversion Hrun as [| w0 tr0 fuel op w1 Hrun0 Hop]; subst.
  pose proof (run_trace_ok env _ Hrun0) as (Hkeys & _).
  pose proof (run_op_rows_step env fuel op w w' true (proj1 Hkeys) Hop) as Hrows.
  destruct (rows_step_pair w w' Hkeys Hkeys' Hrows s s' Hin Hin' Hid) as [_ H].
  exact H.
Qed.

Lemma status_changes_by_one_transition_witness :
  status picked_up_shipment = status created_shipment \/
  In (status picked_up_shipment)
     (Serializers.dict_get Serializers.valid_transitions (status created_shipment) []) \/
  (status created_shipment = IN_TRANSIT /\ status picked_up_shipment = CANCELLED).
Proof.
  assert (H1 : In created_shipment (shipments created_world))
    by (vm_compute; left; reflexivity).
  assert (H2 : In picked_up_shipment (shipments picked_up_world))
    by (vm_compute; left; reflexivity).
  exact (status_changes_by_one_transition healthy_env [empty_world]
           created_world picked_up_world example_run
           created_shipment picked_up_shipment H1 H2 eq_refl).
Defined.

(** X4.  Along every run the status of a shipment is reached from each
    of its earlier statuses by the status changes of the service; so a
    shipment that was [DELIVERED] or [CANCELLED] keeps that status, and a
    shipment that is [PENDING] has been so since it was created. *)
Theorem terminal_status_is_final :
  forall (env : Env) (tr : list World) (w : World),
    run env (w :: tr) ->
    forall s w0 s0,
      In s (shipments w) -> In w0 (w :: tr) -> In s0 (shipments w0) ->
      id s0 = id s ->
      clos_refl_trans Status effective_transition (status s0) (status s) /\
      (status s0 = DELIVERED \/ status s0 = CANCELLED -> status s = status s0) /\
      (status s = PENDING -> status s0 = PENDING).
Proof.
  intros env tr w Hrun s w0 s0 Hin Hw0 Hs0 Hid.
  pose proof (run_status_path env tr w Hrun s w0 s0 Hin Hw0 Hs0 Hid) as Hpath.
  split; [exact Hpath |]. split.
  - apply path_from_final. exact Hpath.
  - apply path_to_pending. exact Hpath.
Qed.

Lemma terminal_status_is_final_witness :
  clos_refl_trans Status effective_transition
    (status created_shipment) (status picked_up_shipment).
Proof.
  assert (H1 : In picked_up_shipment (shipments picked_up_world))
    by (vm_compute; left; reflexivity).
  assert (H2 : In created_world
                 [picked_up_world; created_world; empty_world])
    by (right; left; reflexivity).
  assert (H3 : In created_shipment (shipments created_world))
    by (vm_compute; left; reflexivity).
  exact (proj1 (terminal_status_is_final healthy_env
                  [created_world; empty_world] picked_up_world
                  example_run picked_up_shipment created_world
                  created_shipment H1 H2 H3 eq_refl)).
Defined.

(* ================================================================== *)

(* ================================================================== *)
(** * History rows along a run *)
(* ================================================================== *)

Lemma history_ok_same (w w' : World) :
  history w' = history w -> (forall i, In i (ids w) -> In i (ids w')) ->
  history_ok w -> history_ok w'.
Proof.
  intros Hh Hsub Hok h Hin. rewrite Hh in Hin.
  destruct (Hok h Hin) as [Hid Hst]. split; [apply Hsub; exact Hid | exact Hst].
Qed.

Lemma transition_not_pending (a b : Status) :
  In b (transition_table a) -> b <> PENDING.
Proof. destruct a; cbn; intuition congruence. Qed.

Lemma views_update_history (env : Env) (pk : nat) (data : Serializers.UpdateRequest)
    (w : World) :
  history_ok w -> history_ok (fst (Views.update env pk data w)).
Proof.
  intros Hok. pose proof (update_eq env pk data w) as H.
  destruct (find (fun s => Nat.eqb (id s) pk) (shipments w)) as [instance |] eqn:Ef;
    [| rewrite H; exact Hok].
  apply find_some in Ef. destruct Ef as [Hin _].
  destruct (validated instance data) as [vd | e |] eqn:Ev;
    [| rewrite H; exact Hok | contradiction].
  destruct H as (w' & E & Hs & _ & _ & _ & Hhist). rewrite E. cbn [fst].
  assert (Hids : ids w' = ids w).
  { unfold ids. rewrite Hs. apply update_row_ids. }
  destruct (saved_fields (clock w) (Serializers.setattrs vd instance))
    as (S1 & _ & _ & _ & _ & S6 & _).
  destruct (setattrs_fields vd instance) as (A1 & _).
  destruct (Status_eqb (status instance)
              (status (saved (clock w) (Serializers.setattrs vd instance)))) eqn:Est.
  - apply (history_ok_same w w'); [apply Hhist | rewrite Hids; auto | exact Hok].
  - destruct Hhist as [Hh _]. intros h Hh'. rewrite Hh in Hh'. rewrite Hids.
    destruct Hh' as [<- | Hh']; [| apply Hok; exact Hh'].
    unfold history_row. cbn [h_shipment h_status]. split.
    + rewrite S1, A1. unfold ids. apply in_map. exact Hin.
    + rewrite S6, setattrs_status in *.
      destruct (Serializers.v_status vd) as [v |] eqn:Ev';
        [| rewrite Status_eqb_refl in Est; discriminate].
      destruct (validated_status instance data vd v Ev Ev') as [-> | Hv].
      * rewrite Status_eqb_refl in Est. discriminate.
      * eapply transition_not_pending. exact Hv.
Qed.

Lemma views_destroy_history (pk : nat) (w : World) :
  history_ok w -> history_ok (fst (Views.destroy pk w)).
Proof.
  intros Hok. unfold Views.destroy.
  pose proof (get_object_eq pk w) as Eg.
  destruct (find (fun s => Nat.eqb (id s) pk) (shipments w)) as [instance |].
  2:{ erewrite bind_Raise by exact Eg. exact Hok. }
  erewrite bind_Ret by exact Eg. cbn [fst Objects.delete modify].
  intros h Hh. cbn [history with_history] in Hh. apply filter_In in Hh.
  destruct Hh as [Hh Hne]. destruct (Hok h Hh) as [Hid Hst].
  split; [| exact Hst].
  unfold ids in *. cbn [shipments with_history with_shipments].
  apply in_map_iff in Hid. destruct Hid as (s & Es & Hs).
  apply in_map_iff. exists s. split; [exact Es |].
  apply filter_In. split; [exact Hs |]. rewrite Es. exact Hne.
Qed.

Lemma views_create_history (env : Env) (fuel : nat)
    (data : Serializers.CreateRequest) (w : World) :
  history_ok w -> history_ok (fst (Views.create env fuel data w)).
Proof.
  intros Hok. pose proof (views_create_eq env fuel data w) as H.
  destruct (Serializers.c_order_id data) as [o |]; [| rewrite H; exact Hok].
  destruct (Serializers.c_carrier data) as [c |]; [| rewrite H; exact Hok].
  destruct (Objects.in_integer_range env o);
    [| destruct H as (detail & H); rewrite H; exact Hok].
  destruct (first_free env w (rand_pos w) (S fuel)) as [p |];
    [| rewrite H; exact Hok].
  destruct H as (w' & E & Hs & _ & Hh & _). rewrite E. cbn [fst].
  apply (history_ok_same w w'); [exact Hh | | exact Hok].
  intros i Hi. unfold ids. rewrite Hs. right. exact Hi.
Qed.

Lemma run_op_history (env : Env) (fuel : nat) (op : Op) (w w' : World) (fin : bool) :
  run_op env fuel op w = (w', fin) -> history_ok w -> history_ok w'.
Proof.
  intros H Hok.
  assert (E : w' = fst (run_op env fuel op w)) by (rewrite H; reflexivity).
  subst w'. clear H.
  destruct op; cbn [run_op fst].
  - apply views_create_history; exact Hok.
  - apply views_update_history; exact Hok.
  - apply views_update_history; exact Hok.
  - apply views_destroy_history; exact Hok.
  - destruct (message_callback_acks env fuel routing_key body w) as (c & E & _).
    rewrite E. exact Hok.
Qed.

Lemma last_cons {A} (l : list A) (a d : A) : last (a :: l) d = last l a.
Proof.
  revert a d. induction l as [| b l IH]; intros a d; [reflexivity |].
  change (last (a :: b :: l) d) with (last (b :: l) d).
  rewrite (IH b d), (IH b a). reflexivity.
Qed.

(** X5.  In every world a run has reached from a deployment without
    history, each history row belongs to a shipment that is stored (a
    deleted shipment takes its history with it) and records a status
    other than [PENDING]: the creation of a shipment leaves no row. *)
Theorem history_rows_belong_to_shipments :
  forall (env : Env) (tr : list World) (w : World),
    run env (w :: tr) ->
    history (last tr w) = [] ->
    forall h, In h (history w) ->
      (exists s, In s (shipments w) /\ id s = h_shipment h) /\
      h_status h <> PENDING.
Proof.
  intros env tr w Hrun.
  assert (H : history (last tr w) = [] -> history_ok w).
  { remember (w :: tr) as tr1 eqn:Etr. revert w tr Etr.
    induction Hrun as [w1 Hempty | w1 tr0 fuel op w' Hrun IH Hop];
      intros w tr Etr Hlast; inversion Etr; subst; clear Etr.
    - cbn [last] in Hlast. intros h Hh. rewrite Hlast in Hh. destruct Hh.
    - eapply run_op_history; [exact Hop |].
      apply (IH w1 tr0 eq_refl). rewrite <- (last_cons tr0 w1 w). exact Hlast. }
  intros Hlast h Hh. destruct (H Hlast h Hh) as [Hid Hst].
  split; [| exact Hst].
  unfold ids in Hid. apply in_map_iff in Hid. destruct Hid as (s & Es & Hs).
  exists s. split; assumption.
Qed.

Lemma history_rows_belong_to_shipments_witness :
  (exists s, In s (shipments picked_up_world) /\ id s = 1) /\
  PICKED_UP <> PENDING.
Proof.
  assert (H : In (mkShipmentHistory 1 PICKED_UP EmptyString
                    "Status updated to PICKED_UP" 3%Z)
                 (history picked_up_world))
    by (vm_compute; left; reflexivity).
  exact (history_rows_belong_to_shipments healthy_env
           [created_world; empty_world] picked_up_world example_run eq_refl
           _ H).
Defined.

(* ================================================================== *)

(* ================================================================== *)
(** * The consumer's answers *)
(* ================================================================== *)


(** X7.  A message whose routing key has no entry in [EVENT_HANDLERS]
    is acknowledged and dropped: whatever its body, nothing but the
    acknowledgement happens. *)
Theorem unhandled_routing_key_is_acked :
  forall (env : Env) (fuel : nat) (routing_key : string)
         (body : option Consumer.Message) (w : World),
    ~ In routing_key (map fst (Consumer.EVENT_HANDLERS env fuel)) ->
    Consumer.message_callback env fuel routing_key body w
    = (with_acks (acks w ++ [basic_ack]) w, Ret tt).
Proof.
  intros env fuel routing_key body w Hnot. rewrite message_callback_eq.
  destruct (String.eqb "order.confirmed" routing_key) eqn:E1.
  { apply String.eqb_eq in E1. exfalso. apply Hnot. left. exact E1. }
  destruct (String.eqb "order.cancelled" routing_key) eqn:E2.
  { apply String.eqb_eq in E2. exfalso. apply Hnot. right. left. exact E2. }
  reflexivity.
Qed.

Lemma unhandled_routing_key_is_acked_witness :
  Consumer.message_callback healthy_env 0 "order.shipped" order_42 empty_world
  = (with_acks (acks empty_world ++ [basic_ack]) empty_world, Ret tt).
Proof.
  apply (unhandled_routing_key_is_acked healthy_env 0 "order.shipped" order_42
           empty_world).
  cbn. intros [H | [H | []]]; discriminate H.
Defined.

(** X8.  A body that is not JSON, delivered under a routing key that
    has a handler, is rejected with [requeue=True] and nothing else
    changes; so each redelivery meets the same world and is rejected
    again: after [n] deliveries there are [n] rejections and no other
    effect. *)
Theorem malformed_message_is_requeued_forever :
  forall (env : Env) (fuel : nat) (routing_key : string) (n : nat) (w : World),
    In routing_key (map fst (Consumer.EVENT_HANDLERS env fuel)) ->
    redeliver env fuel routing_key None n w
    = with_acks (acks w ++ repeat (basic_nack true) n) w.
Proof.
  intros env fuel routing_key n w Hin. apply redeliver_handled. exact Hin.
Qed.

Lemma malformed_message_is_requeued_forever_witness :
  redeliver healthy_env 0 "order.confirmed" None 3 empty_world
  = with_acks (acks empty_world ++ repeat (basic_nack true) 3) empty_world.
Proof.
  apply (malformed_message_is_requeued_forever healthy_env 0 "order.confirmed" 3
           empty_world).
  left. reflexivity.
Defined.



(* ================================================================== *)
(** * The publisher's connection *)
(* ================================================================== *)

(** X10.  [publish_event] returns a boolean whatever the broker does,
    and the boolean tells what happened: [True] exactly when the message
    was handed to the exchange, once and as the last one; with [False]
    the exchange has received nothing.  After [True] the publisher holds
    an open connection.  The tables are never touched. *)
Theorem publish_event_true_iff_delivered :
  forall (env : Env) (event_type : string) (data : Payload) (w : World),
    exists w' b,
      Publisher.publish_event env event_type data w = (w', Ret b) /\
      delivered w'
        = (if b then delivered w ++ [(event_type, data)] else delivered w)%list /\
      (b = true -> RABBITMQ_ENABLED (settings env) = true /\ connected w' = true) /\
      tables_kept w w'.
Proof.
  intros env event_type data w.
  unfold Publisher.publish_event, bind at 1, modify at 1.
  destruct (RABBITMQ_ENABLED (settings env)) eqn:Een; cbn [negb].
  2:{ eexists _, false. split; [reflexivity |].
      split; [reflexivity |]. split; [discriminate | repeat split]. }
  destruct w as [sh hi ni cl rp pub bp de ob ac].
  destruct pub as [[[[]|] [[]|]]|]; unfold connected; run_publisher;
    repeat case_broker; do 2 eexists;
    (split; [reflexivity |]); (split; [reflexivity |]);
    (split; [first [discriminate | intros _; split; reflexivity] | repeat split]).
Qed.

(** The next broker interaction is served, by hypothesis [H]. *)
Ltac served_by H :=
  match goal with
  | |- context [match broker ?e ?n with _ => _ end] =>
      rewrite (H n) by lia; simpl
  end.

(** X11.  With publishing enabled, a publisher whose open connection,
    if it has one, has an open channel, and a broker that serves the
    next interactions, [publish_event] succeeds: it reuses the open
    connection and makes one interaction, the publication; otherwise it
    first connects (connection, channel, exchange: three more).
    Afterwards the singleton holds an open connection with an open
    channel. *)
Theorem publish_event_connects_on_demand :
  forall (env : Env) (event_type : string) (data : Payload) (w : World),
    RABBITMQ_ENABLED (settings env) = true ->
    publisher_usable w ->
    (forall p, broker_pos w <= p < broker_pos w + interactions w ->
               broker env p = NoFault) ->
    exists w',
      Publisher.publish_event env event_type data w = (w', Ret true) /\
      _publisher w' = Some (mkPublisherObj (Some Open) (Some ChannelOpen)) /\
      broker_pos w' = broker_pos w + interactions w /\
      delivered w' = (delivered w ++ [(event_type, data)])%list /\
      outbox w' = (outbox w ++ [(event_type, data)])%list /\
      interactions w' = 1 /\ publisher_usable w'.
Proof.
  intros env event_type data w Een Huse Hserve.
  unfold Publisher.publish_event, bind at 1, modify at 1.
  rewrite Een. cbn [negb].
  destruct w as [sh hi ni cl rp pub bp de ob ac].
  unfold publisher_usable, connected, Publisher.self_connection,
    Publisher.self_channel in Huse.
  cbn [_publisher] in Huse.
  unfold interactions, connected, Publisher.self_connection in Hserve.
  cbn [_publisher broker_pos] in Hserve.
  destruct pub as [[[[]|] ch]|]; cbn [connection channel] in Hserve, Huse.
  - specialize (Huse eq_refl). subst ch. run_publisher. repeat served_by Hserve.
    eexists. split; [reflexivity |]. cbn. repeat split. lia.
  - destruct ch as [[]|]; run_publisher; repeat served_by Hserve;
      (eexists; split; [reflexivity |]; cbn; repeat split; lia).
  - destruct ch as [[]|]; run_publisher; repeat served_by Hserve;
      (eexists; split; [reflexivity |]; cbn; repeat split; lia).
  - run_publisher. repeat served_by Hserve.
    eexists. split; [reflexivity |]. cbn. repeat split. lia.
Qed.

Lemma publish_event_connects_on_demand_witness :
  exists w',
    Publisher.publish_event healthy_env "shipment.created" [] empty_world
      = (w', Ret true) /\
    _publisher w' = Some (mkPublisherObj (Some Open) (Some ChannelOpen)) /\
    broker_pos w' = broker_pos empty_world + interactions empty_world /\
    delivered w' = (delivered empty_world ++ [("shipment.created", [])])%list /\
    outbox w' = (outbox empty_world ++ [("shipment.created", [])])%list /\
    interactions w' = 1 /\ publisher_usable w'.
Proof.
  apply (publish_event_connects_on_demand healthy_env "shipment.created" []
           empty_world).
  - reflexivity.
  - intros H. discriminate H.
  - intros p _. reflexivity.
Defined.

(** X12.  [close_publisher] raises nothing whatever the broker does to
    the closing of the connection, leaves no singleton behind, makes at
    most one broker interaction and touches neither the tables nor the
    messages; called again it does nothing at all. *)
Theorem close_publisher_forgets_singleton :
  forall (env : Env) (w : World),
    exists w',
      Publisher.close_publisher env w = (w', Ret tt) /\
      _publisher w' = None /\
      tables_kept w w' /\ delivered w' = delivered w /\ outbox w' = outbox w /\
      broker_pos w' = broker_pos w + (if connected w then 1 else 0) /\
      Publisher.close_publisher env w' = (w', Ret tt).
Proof.
  intros env w.
  destruct w as [sh hi ni cl rp pub bp de ob ac].
  unfold Publisher.close_publisher, connected.
  destruct pub as [[[[]|] [[]|]]|]; run_publisher;
    repeat case_broker; eexists;
    (split; [reflexivity |]); cbn; repeat split; lia.
Qed.

(* ================================================================== *)
(** * Accepted, rejected and repeated updates *)
(* ================================================================== *)

(** X13.  An update the view set accepts either leaves the status as it
    is, and then writes no history row and publishes nothing, or changes
    it along an entry of the dictionary of [validate_status], and then
    writes exactly one history row, for this shipment and the new
    status, and publishes two events: the one of the new status and
    [shipment.status_updated]. *)
Theorem update_logs_and_publishes_status_change :
  forall (env : Env) (pk : nat) (data : Serializers.UpdateRequest)
         (w w' : World) (shipment : Shipment),
    Views.update env pk data w = (w', Ret shipment) ->
    exists instance,
      In instance (shipments w) /\ id instance = pk /\
      (status shipment = status instance ->
       history w' = history w /\ outbox w' = outbox w) /\
      (status shipment <> status instance ->
       In (status shipment)
          (Serializers.dict_get Serializers.valid_transitions (status instance) []) /\
       (exists row, history w' = row :: history w /\
                    h_shipment row = pk /\ h_status row = status shipment) /\
       exists specific,
         status_event_types (status shipment)
           = [specific; "shipment.status_updated"] /\
         map fst (outbox w')
           = (map fst (outbox w) ++ [specific; "shipment.status_updated"])%list).
Proof.
  intros env pk data w w' shipment Hrun.
  destruct (update_history_and_events env pk data w w' shipment Hrun)
    as (instance & Hin & Hid & Hsame & Hchange).
  exists instance. split; [exact Hin |]. split; [exact Hid |].
  split; [exact Hsame |]. intros Hne.
  destruct (Hchange Hne) as (Htab & Hrow & Hout & _ & _).
  rewrite valid_transitions_is_table.
  split; [exact Htab |]. split; [exact Hrow |].
  rewrite Hout. clear - Htab.
  destruct (status shipment); cbn [status_event_types]; eauto.
  exfalso. destruct (status instance); cbn in Htab; intuition discriminate.
Qed.

Lemma update_logs_and_publishes_status_change_witness :
  exists instance,
    In instance (shipments created_world) /\ id instance = 1.
Proof.
  assert (H : Views.update healthy_env 1 (status_request "PICKED_UP")
                created_world
              = (picked_up_world, Ret picked_up_shipment))
    by (vm_compute; reflexivity).
  destruct (update_logs_and_publishes_status_change healthy_env 1
              (status_request "PICKED_UP") created_world picked_up_world
              picked_up_shipment H) as (instance & Hin & Hid & _).
  exists instance. split; [exact Hin | exact Hid].
Defined.

(** What [is_valid] raises is a validation error. *)
Lemma validated_raises (instance : Shipment) (data : Serializers.UpdateRequest)
    (e : Exn) :
  validated instance data = Raise e -> exists detail, e = ValidationError detail.
Proof.
  unfold validated, Serializers.is_valid, bind, ret, raise, lift.
  destruct (Serializers.req_status data) as [raw |]; [| discriminate].
  destruct (Serializers.status_of_string raw) as [value |].
  - rewrite validate_status_eq.
    destruct (_ || _); [discriminate |].
    intros H. inversion H. unfold invalid_transition. eauto.
  - intros H. inversion H. eauto.
Qed.

(** A key is stored exactly when [get_object] finds a row for it. *)
Lemma find_key (pk : nat) (w : World) :
  In pk (ids w) <-> find (fun s => Nat.eqb (id s) pk) (shipments w) <> None.
Proof.
  unfold ids. split.
  - intros Hin Ef. apply in_map_iff in Hin. destruct Hin as (s & Es & Hs).
    apply (find_none _ _ Ef) in Hs. cbn in Hs. rewrite Es, Nat.eqb_refl in Hs.
    discriminate Hs.
  - intros Hf. destruct (find _ _) as [s |] eqn:Ef; [| congruence].
    apply find_some in Ef. destruct Ef as [Hin Hid]. apply Nat.eqb_eq in Hid.
    rewrite <- Hid. apply in_map. exact Hin.
Qed.

(** X14.  [ShipmentViewSet.update] always comes to an end, and when it
    raises, the world is exactly as it was before the request (no row,
    no history, no event, not even the clock).  It raises [Http404]
    exactly when no shipment has the key; for a stored key the only
    exception is a validation error. *)
Theorem rejected_update_changes_nothing :
  forall (env : Env) (pk : nat) (data : Serializers.UpdateRequest) (w : World),
    snd (Views.update env pk data w) <> Diverge /\
    (~ In pk (ids w) -> Views.update env pk data w = (w, Raise Http404)) /\
    forall w' e,
      Views.update env pk data w = (w', Raise e) ->
      w' = w /\
      ((e = Http404 /\ ~ In pk (ids w)) \/
       (In pk (ids w) /\ exists detail, e = ValidationError detail)).
Proof.
  intros env pk data w. pose proof (update_eq env pk data w) as H.
  pose proof (find_key pk w) as Hkey.
  destruct (find (fun s => Nat.eqb (id s) pk) (shipments w)) as [instance |] eqn:Ef.
  - assert (Hin : In pk (ids w)) by (apply Hkey; discriminate).
    destruct (validated instance data) as [vd | e0 |] eqn:Ev; [| | contradiction].
    + destruct H as (w1 & E & _). rewrite E. split; [discriminate |].
      split; [intros Hno; contradiction |].
      intros w' e H'. discriminate H'.
    + rewrite H. split; [discriminate |]. split; [intros Hno; contradiction |].
      intros w' e H'. inversion H'; subst. split; [reflexivity |].
      right. split; [exact Hin |]. eapply validated_raises. exact Ev.
  - assert (Hno : ~ In pk (ids w)) by (intros Hin; apply Hkey in Hin; congruence).
    rewrite H. split; [discriminate |]. split; [reflexivity |].
    intros w' e H'. inversion H'; subst. split; [reflexivity |].
    left. split; [reflexivity | exact Hno].
Qed.

Lemma find_update_row (pk : nat) (self instance : Shipment) (rows : list Shipment) :
  find (fun s => Nat.eqb (id s) pk) rows = Some instance ->
  id self = pk ->
  find (fun s => Nat.eqb (id s) pk) (Objects.update_row self rows) = Some self.
Proof.
  intros Hfind Hid. unfold Objects.update_row.
  induction rows as [| a rows IH]; cbn [find map] in *; [discriminate |].
  destruct (Nat.eqb (id a) pk) eqn:Ea.
  - apply Nat.eqb_eq in Ea.
    replace (Nat.eqb (id a) (id self)) with true
      by (symmetry; apply Nat.eqb_eq; congruence).
    replace (Nat.eqb (id self) pk) with true
      by (symmetry; apply Nat.eqb_eq; exact Hid).
    reflexivity.
  - replace (Nat.eqb (id a) (id self)) with false by (rewrite Hid, Ea; reflexivity).
    rewrite Ea. apply IH. exact Hfind.
Qed.

(** The request an instance was updated with is valid for the result,
    with the same validated data. *)
Lemma validated_again (instance : Shipment) (data : Serializers.UpdateRequest)
    (vd : Serializers.UpdateData) (now : Instant) :
  validated instance data = Ret vd ->
  validated (saved now (Serializers.setattrs vd instance)) data = Ret vd.
Proof.
  intros Hv.
  assert (Hst : forall v, Serializers.v_status vd = Some v ->
                          status (saved now (Serializers.setattrs vd instance)) = v).
  { intros v Ev. destruct (saved_fields now (Serializers.setattrs vd instance))
      as (_ & _ & _ & _ & _ & S6 & _).
    rewrite S6, setattrs_status, Ev. reflexivity. }
  revert Hv Hst. unfold validated, Serializers.is_valid, bind, ret, raise, lift.
  destruct (Serializers.req_status data) as [raw |]; [| auto].
  destruct (Serializers.status_of_string raw) as [value |]; [| discriminate].
  rewrite !validate_status_eq.
  destruct (Status_eqb value (status instance)
            || status_in value (transition_table (status instance)));
    [| discriminate].
  cbn [snd]. intros H Hst. inversion H; subst vd. cbn [Serializers.v_status] in Hst.
  rewrite (Hst value eq_refl), Status_eqb_refl. reflexivity.
Qed.

(** Saving again what was saved only moves [updated_at]. *)
Lemma saved_again (vd : Serializers.UpdateData) (now now' : Instant)
    (instance : Shipment) :
  saved now' (Serializers.setattrs vd (saved now (Serializers.setattrs vd instance)))
  = set_updated_at now' (saved now (Serializers.setattrs vd instance)).
Proof.
  destruct instance as [i o t c st sh de cr up ad et we no].
  destruct vd as [[v |] lo ds [n |] [a |]];
    [destruct v | destruct v | destruct v | destruct v
     | destruct st | destruct st | destruct st | destruct st];
    destruct sh, de; reflexivity.
Qed.

(** The request of an accepted update, sent again, is accepted again;
    the second call only moves [updated_at]. *)
Lemma update_again (env : Env) (pk : nat) (data : Serializers.UpdateRequest)
    (w w1 : World) (s1 : Shipment) :
  Views.update env pk data w = (w1, Ret s1) ->
  exists w2,
    Views.update env pk data w1 = (w2, Ret (set_updated_at (clock w1) s1)) /\
    history w2 = history w1 /\ outbox w2 = outbox w1 /\
    shipments w2
      = Objects.update_row (set_updated_at (clock w1) s1) (shipments w1).
Proof.
  intros Hrun.
  pose proof (update_eq env pk data w) as H.
  destruct (find (fun s => Nat.eqb (id s) pk) (shipments w)) as [instance |] eqn:Ef;
    [| congruence].
  destruct (validated instance data) as [vd | e0 |] eqn:Ev;
    [| congruence | contradiction].
  destruct H as (w1' & E & Hs & _). rewrite E in Hrun.
  inversion Hrun; subst w1' s1. clear Hrun E.
  set (s1 := saved (clock w) (Serializers.setattrs vd instance)) in *.
  assert (Hid : id s1 = pk).
  { subst s1. destruct (saved_fields (clock w) (Serializers.setattrs vd instance))
      as (S1 & _).
    destruct (setattrs_fields vd instance) as (A1 & _).
    apply find_some in Ef. destruct Ef as [_ Ef]. apply Nat.eqb_eq in Ef. congruence. }
  assert (Ef1 : find (fun s => Nat.eqb (id s) pk) (shipments w1) = Some s1).
  { rewrite Hs. exact (find_update_row pk s1 instance (shipments w) Ef Hid). }
  assert (Ev1 : validated s1 data = Ret vd)
    by exact (validated_again instance data vd (clock w) Ev).
  pose proof (update_eq env pk data w1) as H2.
  rewrite Ef1, Ev1 in H2.
  assert (Es : saved (clock w1) (Serializers.setattrs vd s1)
               = set_updated_at (clock w1) s1)
    by exact (saved_again vd (clock w) (clock w1) instance).
  rewrite Es in H2.
  change (status (set_updated_at (clock w1) s1)) with (status s1) in H2.
  rewrite Status_eqb_refl in H2.
  destruct H2 as (w2 & E2 & Hs2 & _ & _ & _ & Hh & Ho).
  exists w2. split; [exact E2 |]. split; [exact Hh |]. split; [exact Ho | exact Hs2].
Qed.

(** X15.  Sending an accepted update once more is accepted again and
    changes nothing but [updated_at]: the second call writes no history
    row and publishes no event, and the shipment it returns is the first
    one with the later [updated_at]. *)
Theorem repeated_update_is_silent :
  forall (env : Env) (pk : nat) (data : Serializers.UpdateRequest)
         (w w1 : World) (s1 : Shipment),
    Views.update env pk data w = (w1, Ret s1) ->
    exists w2,
      Views.update env pk data w1 = (w2, Ret (set_updated_at (clock w1) s1)) /\
      history w2 = history w1 /\ outbox w2 = outbox w1 /\
      shipments w2
        = Objects.update_row (set_updated_at (clock w1) s1) (shipments w1).
Proof.
  intros env pk data w w1 s1 Hrun.
  exact (update_again env pk data w w1 s1 Hrun).
Qed.

Lemma repeated_update_is_silent_witness :
  exists w2,
    Views.update healthy_env 1 (status_request "PICKED_UP") picked_up_world
      = (w2, Ret (set_updated_at (clock picked_up_world) picked_up_shipment)) /\
    history w2 = history picked_up_world /\ outbox w2 = outbox picked_up_world.
Proof.
  assert (H : Views.update healthy_env 1 (status_request "PICKED_UP")
                created_world
              = (picked_up_world, Ret picked_up_shipment))
    by (vm_compute; reflexivity).
  destruct (repeated_update_is_silent healthy_env 1 (status_request "PICKED_UP")
              created_world picked_up_world picked_up_shipment H)
    as (w2 & E & Hh & Ho & _).
  exists w2. split; [exact E |]. split; [exact Hh | exact Ho].
Defined.

(* ================================================================== *)
(** * Creation and lookup *)
(* ================================================================== *)

(** X16.  The three ways [ShipmentViewSet.create] ends.  When it
    returns, the shipment has the order and the carrier of the request,
    an order id within the range of the integer column, the next key,
    status [PENDING], no [shipped_at] and no [delivered_at],
    [created_at] and [updated_at] from two successive readings of the
    clock, and a tracking number [TRK] plus four digits that no stored
    shipment had; it is the new first row, [get_object] finds it under
    its key, no history row is written and exactly one event,
    [shipment.created], is published.  When it raises, the exception is
    a validation error and the world is as it was; a request without
    [order_id] or [carrier], or with an [order_id] outside the range of
    the column, is rejected in this way.  When the allocation loop does
    not end, only random numbers were drawn. *)
Theorem create_outcomes :
  forall (env : Env) (fuel : nat) (data : Serializers.CreateRequest) (w : World),
    match Views.create env fuel data w with
    | (w', Ret shipment) =>
        Serializers.c_order_id data = Some (order_id shipment) /\
        Serializers.c_carrier data = Some (carrier shipment) /\
        Objects.in_integer_range env (order_id shipment) = true /\
        id shipment = next_id w /\ status shipment = PENDING /\
        shipped_at shipment = None /\ delivered_at shipment = None /\
        created_at shipment = clock w /\
        updated_at shipment = (clock w + 1)%Z /\
        is_trk4 (tracking_no shipment) = true /\
        in_use w (tracking_no shipment) = false /\
        shipments w' = shipment :: shipments w /\
        next_id w' = S (next_id w) /\ history w' = history w /\
        map fst (outbox w') = (map fst (outbox w) ++ ["shipment.created"])%list /\
        Objects.get_object (id shipment) w' = (w', Ret shipment)
    | (w', Raise e) =>
        w' = w /\ exists detail, e = ValidationError detail
    | (w', Diverge) =>
        w' = with_rand_pos (rand_pos w + S fuel) w /\
        first_free env w (rand_pos w) (S fuel) = None
    end /\
    (Serializers.c_order_id data = None \/ Serializers.c_carrier data = None \/
     (exists o, Serializers.c_order_id data = Some o /\
                Objects.in_integer_range env o = false) ->
     exists detail,
       Views.create env fuel data w = (w, Raise (ValidationError detail))).
Proof.
  intros env fuel data w. pose proof (views_create_eq env fuel data w) as H.
  destruct (Serializers.c_order_id data) as [o |] eqn:Eo;
    [| rewrite H; eauto 6].
  destruct (Serializers.c_carrier data) as [c |] eqn:Ec;
    [| rewrite H; eauto 6].
  destruct (Objects.in_integer_range env o) eqn:Er.
  2:{ destruct H as [detail H]. rewrite H. eauto 6. }
  split.
  2:{ intros [Hn | [Hn | (o' & Eo' & Hr)]]; [discriminate Hn | discriminate Hn |].
      inversion Eo'; subst o'. congruence. }
  destruct (first_free env w (rand_pos w) (S fuel)) as [p |] eqn:Ef;
    [| rewrite H; auto].
  apply first_free_Some in Ef. destruct Ef as [_ Hfree].
  destruct H as (w' & E & Hs & Hn & Hh & _ & _ & Ho). rewrite E.
  cbn [created_row order_id carrier id status shipped_at delivered_at tracking_no
       created_at updated_at].
  repeat (split; [solve [reflexivity | assumption
                        | apply format_trk_four_digits, sample_at_range] |]).
  rewrite get_object_eq, Hs. cbn [find created_row id].
  rewrite Nat.eqb_refl. reflexivity.
Qed.

Lemma filter_unique {A} (f : A -> string) (l : list A) (s : A) :
  NoDup (map f l) -> In s l ->
  filter (fun x => String.eqb (f x) (f s)) l = [s].
Proof.
  induction l as [| a l IH]; intros Hnd Hin; [contradiction |].
  cbn [map] in Hnd. inversion Hnd as [| ? ? Hnotin Hnd']; subst.
  cbn [filter]. destruct Hin as [-> | Hin].
  - rewrite String.eqb_refl. f_equal. apply filter_nil.
    intros x Hx. apply String.eqb_neq. intros E. apply Hnotin.
    rewrite <- E. apply in_map. exact Hx.
  - replace (String.eqb (f a) (f s)) with false; [apply IH; assumption |].
    symmetry. apply String.eqb_neq. intros E. apply Hnotin.
    rewrite E. apply in_map. exact Hin.
Qed.

Lemma filter_two {A} (f : A -> string) (t : string) (l : list A) (a b : A)
    (r : list A) :
  NoDup (map f l) ->
  filter (fun x => String.eqb (f x) t) l <> a :: b :: r.
Proof.
  intros Hnd E.
  assert (Ha : In a (filter (fun x => String.eqb (f x) t) l))
    by (rewrite E; left; reflexivity).
  assert (Hb : In b (filter (fun x => String.eqb (f x) t) l))
    by (rewrite E; right; left; reflexivity).
  apply filter_In in Ha. apply filter_In in Hb.
  destruct Ha as [Ha Ea], Hb as [Hb Eb].
  apply String.eqb_eq in Ea. apply String.eqb_eq in Eb.
  assert (a = b) by (apply (NoDup_map_inj f l Hnd); congruence). subst b.
  pose proof (NoDup_filter (fun x => String.eqb (f x) t)
                (NoDup_map_inv f l Hnd)) as Hf.
  rewrite E in Hf. inversion Hf as [| ? ? Hnotin _]; subst.
  apply Hnotin. left. reflexivity.
Qed.

(** X17.  In every world of a run, [by_tracking] answers the tracking
    number of a stored shipment with that very shipment, never fails on
    several matches, and a shipment it answers with is stored under the
    tracking number asked for. *)
Theorem by_tracking_finds_every_shipment :
  forall (env : Env) (tr : list World) (w : World),
    run env (w :: tr) ->
    (forall s, In s (shipments w) ->
               Views.by_tracking (Some (tracking_no s)) w = Views.Found s) /\
    (forall t, Views.by_tracking t w <> Views.MultipleObjectsReturned) /\
    (forall t s, Views.by_tracking t w = Views.Found s ->
                 In s (shipments w) /\ t = Some (tracking_no s)).
Proof.
  intros env tr w Hrun.
  destruct (run_tracking_ok env _ Hrun w (or_introl eq_refl)) as [Hnd Hfmt].
  split; [| split].
  - intros s Hin. unfold Views.by_tracking.
    specialize (Hfmt s Hin).
    destruct (String.eqb (tracking_no s) EmptyString) eqn:Ee.
    { apply String.eqb_eq in Ee. rewrite Ee in Hfmt. discriminate Hfmt. }
    rewrite (filter_unique tracking_no (shipments w) s Hnd Hin). reflexivity.
  - intros [t |]; unfold Views.by_tracking; [| discriminate].
    destruct (String.eqb t EmptyString); [discriminate |].
    destruct (filter _ _) as [| a [| b r]] eqn:Ef; try discriminate.
    exfalso. exact (filter_two tracking_no t (shipments w) a b r Hnd Ef).
  - intros [t |] s; unfold Views.by_tracking; [| discriminate].
    destruct (String.eqb t EmptyString); [discriminate |].
    destruct (filter _ _) as [| a [| b r]] eqn:Ef; try discriminate.
    intros H. inversion H; subst a.
    assert (Hs : In s (filter (fun x => String.eqb (tracking_no x) t) (shipments w)))
      by (rewrite Ef; left; reflexivity).
    apply filter_In in Hs. destruct Hs as [Hin Et]. apply String.eqb_eq in Et.
    split; [exact Hin | congruence].
Qed.

Lemma by_tracking_finds_every_shipment_witness :
  Views.by_tracking (Some "TRK1000") picked_up_world = Views.Found picked_up_shipment.
Proof.
  assert (H : In picked_up_shipment (shipments picked_up_world))
    by (vm_compute; left; reflexivity).
  exact (proj1 (by_tracking_finds_every_shipment healthy_env
                  [created_world; empty_world] picked_up_world example_run)
           picked_up_shipment H).
Defined.

(** X18.  What [ShipmentViewSet.update] answers and what it stores do
    not depend on the settings or on the broker: under two environments
    the result, both tables, the key counter and the names of the events
    handed to [publish_event] are the same.  A publication that fails or
    is switched off never changes or fails an update. *)
Theorem update_does_not_depend_on_broker :
  forall (env env' : Env) (pk : nat) (data : Serializers.UpdateRequest) (w : World),
    snd (Views.update env pk data w) = snd (Views.update env' pk data w) /\
    shipments (fst (Views.update env pk data w))
      = shipments (fst (Views.update env' pk data w)) /\
    history (fst (Views.update env pk data w))
      = history (fst (Views.update env' pk data w)) /\
    next_id (fst (Views.update env pk data w))
      = next_id (fst (Views.update env' pk data w)) /\
    map fst (outbox (fst (Views.update env pk data w)))
      = map fst (outbox (fst (Views.update env' pk data w))).
Proof.
  intros env env' pk data w.
  pose proof (update_eq env pk data w) as H.
  pose proof (update_eq env' pk data w) as H'.
  destruct (find (fun s => Nat.eqb (id s) pk) (shipments w)) as [instance |];
    [| rewrite H, H'; repeat split].
  destruct (validated instance data) as [vd | e |];
    [| rewrite H, H'; repeat split | contradiction].
  destruct H as (w1 & E & Hs & Hn & _ & _ & Hh).
  destruct H' as (w1' & E' & Hs' & Hn' & _ & _ & Hh').
  rewrite E, E'. cbn [fst snd].
  destruct (Status_eqb (status instance)
              (status (saved (clock w) (Serializers.setattrs vd instance))));
    destruct Hh as [Hh Ho], Hh' as [Hh' Ho'];
    rewrite Hs, Hs', Hn, Hn', Hh, Hh', Ho, ?Ho'; repeat split.
Qed.

(* ================================================================== *)

(* ================================================================== *)
(** * Deletion *)
(* ================================================================== *)

(** X19.  The two ways [destroy] ends.  For the key of a stored
    shipment it removes the rows with that key and, with them, their
    history rows, keeps every other row of both tables, and publishes
    no event: a deletion is not announced.  For any other key it raises
    [Http404] and the world is as it was. *)
Theorem destroy_outcomes :
  forall (pk : nat) (w : World),
    match Views.destroy pk w with
    | (w', Ret _) =>
        In pk (ids w) /\ ~ In pk (ids w') /\
        (forall s, In s (shipments w') <-> In s (shipments w) /\ id s <> pk) /\
        (forall h, In h (history w') <-> In h (history w) /\ h_shipment h <> pk) /\
        next_id w' = next_id w /\ outbox w' = outbox w /\ delivered w' = delivered w
    | (w', Raise e) => w' = w /\ e = Http404 /\ ~ In pk (ids w)
    | (w', Diverge) => False
    end.
Proof.
  intros pk w. unfold Views.destroy.
  pose proof (get_object_eq pk w) as Eg.
  destruct (find (fun s => Nat.eqb (id s) pk) (shipments w)) as [instance |] eqn:Ef.
  - erewrite bind_Ret by exact Eg.
    apply find_some in Ef. destruct Ef as [Hin Hid]. apply Nat.eqb_eq in Hid.
    unfold Objects.delete, modify.
    cbn [shipments history next_id outbox delivered with_history with_shipments ids].
    rewrite Hid.
    assert (Hs : forall s, In s (filter (fun s => negb (Nat.eqb (id s) pk)) (shipments w))
                           <-> In s (shipments w) /\ id s <> pk).
    { intros s. rewrite filter_In, negb_true_iff, Nat.eqb_neq. reflexivity. }
    split; [unfold ids; rewrite <- Hid; apply in_map; exact Hin |].
    split.
    { unfold ids. cbn [shipments]. intros H. apply in_map_iff in H.
      destruct H as (s & Es & H). apply Hs in H. destruct H as [_ H]. contradiction. }
    split; [exact Hs |]. split; [| repeat split].
    intros h. rewrite filter_In, negb_true_iff, Nat.eqb_neq. reflexivity.
  - erewrite bind_Raise by exact Eg.
    split; [reflexivity |]. split; [reflexivity |].
    intros Hin. unfold ids in Hin. apply in_map_iff in Hin.
    destruct Hin as (s & Es & Hs).
    apply (find_none _ _ Ef) in Hs. cbn in Hs. rewrite Es, Nat.eqb_refl in Hs.
    discriminate Hs.
Qed.

(* ================================================================== *)
(** * Timestamps and the current status *)
(* ================================================================== *)

(** A row change with the timestamps of [Shipment.save] keeps the
    shipping time in step with the status. *)
Lemma shipped_ok_step (s s' : Shipment) :
  row_step s s' -> row_change s s' -> shipped_ok s -> shipped_ok s'.
Proof.
  intros [-> | (now & x & _ & Hsh & _ & ->)] [_ Hst] Hok; [exact Hok |].
  unfold shipped_ok in *.
  destruct (saved_fields now x) as (_ & _ & _ & _ & _ & S6 & S7 & _).
  rewrite S6 in *. rewrite S7. rewrite Hsh in *. intros Hin.
  destruct (status_in (status x) [PICKED_UP; IN_TRANSIT]) eqn:Eship.
  - destruct (shipped_at s); cbn [andb is_unset]; discriminate.
  - cbn [andb]. apply Hok.
    destruct Hst as [<- | [Hd | [-> _]]]; [exact Hin | | cbn; auto].
    revert Hin Hd Eship. clear.
    destruct (status x), (status s); cbn; intuition discriminate.
Qed.

Lemma run_shipped_ok (env : Env) (tr : list World) :
  run env tr -> forall w s, In w tr -> In s (shipments w) -> shipped_ok s.
Proof.
  induction 1 as [w Hempty | w tr0 fuel op w' Hrun IH Hop]; intros w1 s Hw Hin.
  - destruct Hw as [<- | []]. rewrite Hempty in Hin. destruct Hin.
  - destruct Hw as [<- | Hw]; [| eapply IH; eassumption].
    pose proof (run_trace_ok env _ Hrun) as (Hkeys & _).
    pose proof (run_trace_ok env _ (run_step env _ _ _ _ _ Hrun Hop))
      as (Hkeys' & _).
    pose proof (run_op_rows_step env fuel op w w' true (proj1 Hkeys) Hop) as Hrows.
    destruct (run_op_step env fuel op w w' true Hop) as (_ & _ & Hrow).
    destruct (Hrow s Hin) as [(_ & Hp & _) | (s0 & Hin0 & Hid & Hstep)].
    + intros Hst. rewrite Hp in Hst. cbn in Hst. intuition discriminate.
    + apply (shipped_ok_step s0 s Hstep).
      * apply (rows_step_pair w w' Hkeys Hkeys' Hrows); assumption.
      * apply (IH w s0); [left; reflexivity | exact Hin0].
Qed.

(** X21.  Along every run the timestamps of a stored shipment agree
    with its current status: it has a delivery time exactly when it is
    [DELIVERED]; while it is [PENDING] it has neither timestamp; and once
    it is [PICKED_UP], [IN_TRANSIT], [OUT_FOR_DELIVERY], [DELIVERED] or
    [FAILED] it has a shipping time. *)
Theorem timestamps_match_current_status :
  forall (env : Env) (tr : list World) (w : World),
    run env (w :: tr) ->
    forall s, In s (shipments w) ->
      (delivered_at s <> None <-> status s = DELIVERED) /\
      (status s = PENDING -> shipped_at s = None /\ delivered_at s = None) /\
      (In (status s) [PICKED_UP; IN_TRANSIT; OUT_FOR_DELIVERY; DELIVERED; FAILED] ->
       shipped_at s <> None).
Proof.
  intros env tr w Hrun s Hin.
  pose proof (run_trace_ok env _ Hrun) as (_ & _ & Hst).
  destruct (Hst s Hin) as (F1 & F2 & _ & _).
  assert (Hpast : forall sts, reached (w :: tr) (id s) sts ->
            exists st0, In st0 sts /\
                        clos_refl_trans Status effective_transition st0 (status s)).
  { intros sts (w0 & s0 & Hw0 & Hs0 & Hid & Hst0).
    exists (status s0). split; [apply status_in_In; exact Hst0 |].
    apply (run_status_path env tr w Hrun s w0 s0); assumption. }
  split; [split |]; [| | split].
  - intros Hd. apply F2 in Hd. destruct (Hpast _ Hd) as (st0 & [<- | []] & Hpath).
    apply (path_from_final DELIVERED (status s) Hpath). left. reflexivity.
  - intros Hd. apply F2. apply reached_now; [exact Hin |]. rewrite Hd. reflexivity.
  - intros Hp. split.
    + destruct (shipped_at s) as [t |] eqn:Et; [exfalso | reflexivity].
      assert (Hne : shipped_at s <> None) by (rewrite Et; discriminate).
      apply F1 in Hne. destruct (Hpast _ Hne) as (st0 & Hst0 & Hpath).
      apply (path_to_pending st0 (status s) Hpath) in Hp. subst st0.
      destruct Hst0 as [H | [H | []]]; discriminate H.
    + destruct (delivered_at s) as [t |] eqn:Et; [exfalso | reflexivity].
      assert (Hne : delivered_at s <> None) by (rewrite Et; discriminate).
      apply F2 in Hne. destruct (Hpast _ Hne) as (st0 & Hst0 & Hpath).
      apply (path_to_pending st0 (status s) Hpath) in Hp. subst st0.
      destruct Hst0 as [H | []]; discriminate H.
  - apply (run_shipped_ok env (w :: tr) Hrun w s); [left; reflexivity | exact Hin].
Qed.

Lemma timestamps_match_current_status_witness :
  shipped_at picked_up_shipment <> None.
Proof.
  assert (H : In picked_up_shipment (shipments picked_up_world))
    by (vm_compute; left; reflexivity).
  exact (proj2 (proj2 (timestamps_match_current_status healthy_env
                         [created_world; empty_world] picked_up_world
                         example_run picked_up_shipment H))
           (or_introl eq_refl)).
Defined.

(* ================================================================== *)
(** * History rows and events of every operation *)
(* ================================================================== *)



















